(** * En-Route backend: real-time dispatch coordinator

    A shallow embedding of [en-route/backend/server.js]: the two in-memory
    maps [driverPositions] and [activeOrders] with the socket handlers that
    read and write them, the order price computation, the order status
    route and the wallet recharge confirmation route; then the respond,
    payment-proof and payment-confirmation routes, the order-number hook
    and the token part of the authentication middleware.

    Conventions of the embedding.
    - JavaScript numbers are idealised as real numbers ([R]): rounding
      error, NaN, infinities and the sign of zero are outside the model.
    - A JavaScript [Map] is an insertion-ordered association list
      ([jsmap]), because the handlers iterate over it.
    - A MongoDB collection is a finite map from document id to document.
    - [new Date()] is an explicit [now] argument of each handler. *)

From Stdlib Require Import Reals Lra Ascii.
From stdpp Require Import gmap strings list fin_maps pretty.

(** ** JavaScript values as they arrive in a socket payload *)

Inductive jsval : Type :=
| JUndefined
| JNull
| JBool (b : bool)
| JNum (x : R)
| JStr (s : string).

(** Truthiness, as used by [||], [&&] and [if]. *)
Definition truthy (v : jsval) : bool :=
  match v with
  | JUndefined | JNull => false
  | JBool b => b
  | JNum x => if Req_dec_T x 0 then false else true
  | JStr s => if decide (s = EmptyString) then false else true
  end.

(** [a || b] *)
Definition js_or (a b : jsval) : jsval := if truthy a then a else b.

(** [v !== false] *)
Definition strict_neq_false (v : jsval) : bool :=
  match v with
  | JBool false => false
  | _ => true
  end.

(** ** JavaScript [Map] with string keys, in insertion order *)

Definition jsmap (V : Type) : Type := list (string * V).

Fixpoint jsmap_get {V} (k : string) (m : jsmap V) : option V :=
  match m with
  | [] => None
  | (k', v) :: m' => if decide (k = k') then Some v else jsmap_get k m'
  end.

(** [Map.prototype.set]: an existing key keeps its place, a new key is
    appended. *)
Fixpoint jsmap_set {V} (k : string) (v : V) (m : jsmap V) : jsmap V :=
  match m with
  | [] => [(k, v)]
  | (k', v') :: m' =>
      if decide (k = k') then (k, v) :: m' else (k', v') :: jsmap_set k v m'
  end.

Definition jsmap_values {V} (m : jsmap V) : list V := m.*2.

Definition jsmap_keys {V} (m : jsmap V) : list string := m.*1.

(** ** The in-memory state of the socket server *)

Definition time : Type := nat.
Bind Scope nat_scope with time.

(** The object stored in [driverPositions]. *)
Record position : Type := mkPosition {
  lat : jsval;
  lon : jsval;
  speed : jsval;
  heading : jsval;
  battery : jsval;
  isOnline : bool;
  lastUpdate : time;
  socketId : string
}.

(** The object stored in [activeOrders]. *)
Record session : Type := mkSession {
  orderId : string;
  driverId : string;
  driverSocketId : string;
  clientSocketId : option string;
  status : string
}.

Record rt_state : Type := mkRt {
  driverPositions : jsmap position;
  activeOrders : jsmap session
}.

Definition rt_init : rt_state := mkRt [] [].

(** Payloads of the events the handlers receive. *)
Record location_data : Type := mkLocationData {
  ld_driverId : string;
  ld_lat : jsval;
  ld_lon : jsval;
  ld_speed : jsval;
  ld_heading : jsval;
  ld_battery : jsval;
  ld_isOnline : jsval
}.

Record track_data : Type := mkTrackData {
  td_orderId : string;
  td_clientId : string
}.

Record accept_data : Type := mkAcceptData {
  ad_orderId : string;
  ad_driverId : string
}.

Record chat_data : Type := mkChatData {
  cd_orderId : string;
  cd_senderId : string;
  cd_senderType : string;
  cd_message : jsval;
  cd_type : jsval
}.

(** What a handler sends out. *)
Inductive payload : Type :=
| DriversUpdate (d : string) (p : position)
| OrderDriverLocation (o : string) (la lo sp hd : jsval)
| ChatNewMessage (c : chat_data) (t : time).

Inductive emit : Type :=
| BroadcastExcept (sender : string) (event : string) (p : payload)
| EmitTo (target : option string) (event : string) (p : payload)
| EmitAll (event : string) (p : payload).

(** The [position] object built at lines 85-94. *)
Definition make_position (sock : string) (now : time) (data : location_data)
  : position :=
  {| lat := ld_lat data;
     lon := ld_lon data;
     speed := js_or (ld_speed data) (JNum 0);
     heading := js_or (ld_heading data) (JNum 0);
     battery := js_or (ld_battery data) (JNum 100);
     isOnline := strict_neq_false (ld_isOnline data);
     lastUpdate := now;
     socketId := sock |}.

(** [[...activeOrders.values()].find(o => o.driverId === driverId)] *)
Definition find_active_order (d : string) (m : jsmap session) : option session :=
  List.find (fun o => bool_decide (driverId o = d)) (jsmap_values m).

(** [socket.on('driver:location', ...)].  The sampled write of the
    coordinates to the user document touches neither map and is left out. *)
Definition on_driver_location (sock : string) (now : time)
    (data : location_data) (st : rt_state) : rt_state * list emit :=
  let position := make_position sock now data in
  let st' := mkRt (jsmap_set (ld_driverId data) position (driverPositions st))
                  (activeOrders st) in
  let out1 := [BroadcastExcept sock "drivers:update"
                 (DriversUpdate (ld_driverId data) position)] in
  let out2 :=
    match find_active_order (ld_driverId data) (activeOrders st) with
    | Some activeOrder =>
        [EmitTo (clientSocketId activeOrder) "order:driver_location"
           (OrderDriverLocation (orderId activeOrder) (ld_lat data)
              (ld_lon data) (ld_speed data) (ld_heading data))]
    | None => []
    end in
  (st', out1 ++ out2).

(** [socket.on('order:track', ...)] *)
Definition on_order_track (sock : string) (data : track_data)
    (st : rt_state) : rt_state * list emit :=
  match jsmap_get (td_orderId data) (activeOrders st) with
  | Some order =>
      let order' := mkSession (orderId order) (driverId order)
                      (driverSocketId order) (Some sock) (status order) in
      (mkRt (driverPositions st)
            (jsmap_set (td_orderId data) order' (activeOrders st)), [])
  | None => (st, [])
  end.

(** [socket.on('driver:accept_order', ...)] *)
Definition on_driver_accept_order (sock : string) (data : accept_data)
    (st : rt_state) : rt_state * list emit :=
  (mkRt (driverPositions st)
        (jsmap_set (ad_orderId data)
           {| orderId := ad_orderId data;
              driverId := ad_driverId data;
              driverSocketId := sock;
              clientSocketId := None;
              status := "accepted" |}
           (activeOrders st)), []).

(** The delivery part of [socket.on('chat:message', ...)]; the message is
    also appended to the order document, which is not part of [rt_state]. *)
Definition on_chat_message (now : time) (data : chat_data)
    (st : rt_state) : rt_state * list emit :=
  match jsmap_get (cd_orderId data) (activeOrders st) with
  | Some activeOrder =>
      let targetSocket :=
        if decide (cd_senderType data = "client")
        then Some (driverSocketId activeOrder)
        else clientSocketId activeOrder in
      match targetSocket with
      | Some t =>
          if decide (t = EmptyString) then (st, [])
          else (st, [EmitTo (Some t) "chat:new_message" (ChatNewMessage data now)])
      | None => (st, [])
      end
  | None => (st, [])
  end.

Definition mark_offline (sock : string) (pos : position) : position :=
  if decide (socketId pos = sock)
  then mkPosition (lat pos) (lon pos) (speed pos) (heading pos) (battery pos)
         false (lastUpdate pos) (socketId pos)
  else pos.

(** [socket.on('disconnect', ...)]: every entry is visited once, in
    insertion order; writing back under the same key keeps the order. *)
Definition on_disconnect (sock : string) (st : rt_state)
  : rt_state * list emit :=
  (mkRt (map (fun e => (e.1, mark_offline sock e.2)) (driverPositions st))
        (activeOrders st),
   omap (fun e : string * position =>
           if decide (socketId e.2 = sock)
           then Some (EmitAll "drivers:update"
                        (DriversUpdate e.1 (mark_offline sock e.2)))
           else None)
        (driverPositions st)).

(** One inbound socket event, with the connection it arrives on. *)
Inductive socket_event : Type :=
| EvLocation (sock : string) (now : time) (data : location_data)
| EvTrack (sock : string) (data : track_data)
| EvAccept (sock : string) (data : accept_data)
| EvChat (sock : string) (now : time) (data : chat_data)
| EvDisconnect (sock : string).

Definition handle (ev : socket_event) (st : rt_state) : rt_state * list emit :=
  match ev with
  | EvLocation sock now data => on_driver_location sock now data st
  | EvTrack sock data => on_order_track sock data st
  | EvAccept sock data => on_driver_accept_order sock data st
  | EvChat _ now data => on_chat_message now data st
  | EvDisconnect sock => on_disconnect sock st
  end.

(** Events are processed one after the other in arrival order. *)
Fixpoint run (evs : list socket_event) (st : rt_state) : rt_state :=
  match evs with
  | [] => st
  | ev :: evs' => run evs' (handle ev st).1
  end.

(** ** Numbers *)

Local Open Scope R_scope.

(** [Math.round]: the nearest integer, halves rounded up. *)
Definition js_round (x : R) : R := IZR (Zfloor (x + 1 / 2)).

(** Truthiness of a number. *)
Definition num_truthy (x : R) : bool := if Req_dec_T x 0 then false else true.

(** [x || d] for a numeric field [x] that may be missing. *)
Definition num_or (x : option R) (d : R) : R :=
  match x with
  | Some v => if num_truthy v then v else d
  | None => d
  end.

(** [Math.atan2 y x]. *)
Definition atan2 (y x : R) : R :=
  if Rlt_dec 0 x then atan (y / x)
  else if Rlt_dec x 0 then
         (if Rle_dec 0 y then atan (y / x) + PI else atan (y / x) - PI)
  else if Rlt_dec 0 y then PI / 2
  else if Rlt_dec y 0 then - (PI / 2)
  else 0.

(** [calculateDistance] (haversine), lines 624-634. *)
Definition calculateDistance (lat1 lon1 lat2 lon2 : R) : R :=
  let R := 6371 in
  let dLat := (lat2 - lat1) * PI / 180 in
  let dLon := (lon2 - lon1) * PI / 180 in
  let a :=
    sin (dLat / 2) * sin (dLat / 2) +
    cos (lat1 * PI / 180) * cos (lat2 * PI / 180) *
    sin (dLon / 2) * sin (dLon / 2) in
  let c := 2 * atan2 (sqrt a) (sqrt (1 - a)) in
  R * c.

(** ** Documents of the durable store *)

(** A geolocated point whose coordinates are numbers. *)
Record geo : Type := mkGeo { geo_lat : R; geo_lon : R }.

Record pricing : Type := mkPricing {
  pricePerKm : option R;
  minimumPrice : option R
}.

Record vehicle : Type := mkVehicle {
  vehicle_driverId : string;
  isAvailable : bool;
  vehicle_pricing : pricing
}.

Record payment : Type := mkPayment {
  amount : R;
  platformFee : R;
  driverShare : R;
  payment_status : string
}.

Record order : Type := mkOrder {
  order_clientId : string;
  order_driverId : option string;
  order_status : string;
  order_serviceType : string;
  order_tracking : list geo;
  estimated_km : option R;
  actual_km : option R;
  order_payment : payment;
  startedAt : option time;
  completedAt : option time
}.

Record user : Type := mkUser {
  user_type : string;
  totalTrips : R;
  totalKm : R;
  wallet_balance : R
}.

Record wallet_transaction : Type := mkWalletTransaction {
  wt_userId : string;
  wt_amount : R;
  wt_status : string;
  wt_confirmedAt : option time;
  wt_confirmedBy : option string
}.

Record database : Type := mkDb {
  orders : gmap string order;
  users : gmap string user;
  vehicles : gmap string vehicle;
  transactions : gmap string wallet_transaction
}.

(** The [enum] of [status] in the order schema; [save()] refuses any
    other value. *)
Definition order_status_enum : list string :=
  ["pending"; "accepted"; "driver_coming"; "loading"; "in_transit";
   "unloading"; "completed"; "cancelled"; "disputed"].

Definition service_type_enum : list string :=
  ["transport"; "location_heure"; "location_jour"].

(** ** Order creation: [POST /api/orders] *)

(** Lines 1100-1110: amount, platform fee and driver share. *)
Definition compute_payment (p : pricing) (serviceType : string)
    (pickup : geo) (dropoff : option geo) : payment :=
  let amount0 := num_or (minimumPrice p) 5000 in
  let amount1 :=
    match dropoff with
    | Some dropoff =>
        if bool_decide (serviceType = "transport")
           && num_truthy (geo_lat pickup) && num_truthy (geo_lat dropoff)
        then
          let distance := calculateDistance (geo_lat pickup) (geo_lon pickup)
                            (geo_lat dropoff) (geo_lon dropoff) in
          Rmax amount0 (distance * num_or (pricePerKm p) 500)
        else amount0
    | None => amount0
    end in
  let platformFee := js_round (amount1 * (15 / 100)) in
  let driverShare := amount1 - platformFee in
  mkPayment amount1 platformFee driverShare "pending".

Definition estimate_km (pickup : geo) (dropoff : option geo) : option R :=
  match dropoff with
  | Some dropoff =>
      if num_truthy (geo_lat pickup) && num_truthy (geo_lat dropoff)
      then Some (calculateDistance (geo_lat pickup) (geo_lon pickup)
                   (geo_lat dropoff) (geo_lon dropoff))
      else None
  | None => None
  end.

(** The handler; [new_id] is the identifier the store gives the new
    document.  The result is the store and the HTTP status.  The vehicle
    is read with [populate('driverId')], which leaves [vehicle.driverId]
    null when the driver is no stored user; [vehicle.driverId._id] (line
    1114) then throws and the route answers 500 with nothing stored. *)
Definition post_orders (uid : string) (new_id : string) (vehicleId : string)
    (serviceType : string) (pickup : geo) (dropoff : option geo)
    (db : database) : database * nat :=
  match vehicles db !! vehicleId with
  | None => (db, 400%nat)
  | Some vehicle =>
      if negb (isAvailable vehicle) then (db, 400%nat)
      else
        match users db !! vehicle_driverId vehicle with
        | None => (db, 500%nat)
        | Some _ =>
            let order :=
              {| order_clientId := uid;
                 order_driverId := Some (vehicle_driverId vehicle);
                 order_status := "pending";
                 order_serviceType := serviceType;
                 order_tracking := [];
                 estimated_km := estimate_km pickup dropoff;
                 actual_km := None;
                 order_payment :=
                   compute_payment (vehicle_pricing vehicle) serviceType pickup
                     dropoff;
                 startedAt := None;
                 completedAt := None |} in
            if bool_decide (serviceType ∈ service_type_enum)
            then (mkDb (<[new_id := order]> (orders db)) (users db)
                    (vehicles db) (transactions db), 201%nat)
            else (db, 500%nat)
        end
  end.

(** ** Order status: [PUT /api/orders/:id/status] *)

Definition geo0 : geo := mkGeo 0 0.

(** The loop of lines 1379-1387. *)
Definition tracking_total_km (tracking : list geo) : R :=
  fold_left
    (fun totalKm i =>
       totalKm +
       calculateDistance
         (geo_lat (nth (i - 1) tracking geo0)) (geo_lon (nth (i - 1) tracking geo0))
         (geo_lat (nth i tracking geo0)) (geo_lon (nth i tracking geo0)))
    (seq 1 (length tracking - 1)) 0.

(** [actual_km] after the [completed] branch. *)
Definition completed_actual_km (o : order) : option R :=
  if bool_decide (1 < length (order_tracking o))%nat
  then Some (js_round (tracking_total_km (order_tracking o) * 10) / 10)
  else actual_km o.

(** [order.distance.actual_km || order.distance.estimated_km || 0] *)
Definition stats_km (actual estimated : option R) : R :=
  num_or actual (num_or estimated 0).

(** [$inc] of the two driver counters; an unknown id changes nothing. *)
Definition inc_driver_stats (driver : string) (trips km : R)
    (us : gmap string user) : gmap string user :=
  alter (fun u => mkUser (user_type u) (totalTrips u + trips)
                    (totalKm u + km) (wallet_balance u)) driver us.

Definition put_order_status (now : time) (uid utype : string) (id : string)
    (new_status : string) (db : database) : database * nat :=
  match orders db !! id with
  | None => (db, 404%nat)
  | Some o =>
      match order_driverId o with
      | None => (db, 500%nat)
      | Some drv =>
          let isDriver := bool_decide (drv = uid) in
          let isAdmin := bool_decide (utype = "admin") in
          if negb isDriver && negb isAdmin then (db, 403%nat)
          else
            let started :=
              if bool_decide (new_status = "in_transit")
              then Some now else startedAt o in
            let completed := bool_decide (new_status = "completed") in
            let actual := if completed then completed_actual_km o else actual_km o in
            let o' :=
              mkOrder (order_clientId o) (order_driverId o) new_status
                (order_serviceType o) (order_tracking o) (estimated_km o)
                actual (order_payment o) started
                (if completed then Some now else completedAt o) in
            let users' :=
              if completed
              then inc_driver_stats drv 1 (stats_km actual (estimated_km o)) (users db)
              else users db in
            if bool_decide (new_status ∈ order_status_enum)
            then (mkDb (<[id := o']> (orders db)) users' (vehicles db)
                    (transactions db), 200%nat)
            else (mkDb (orders db) users' (vehicles db) (transactions db), 500%nat)
      end
  end.

(** ** Wallet recharge: [POST /api/admin/confirm-recharge/:transactionId] *)

Definition credit_wallet (uid : string) (x : R) (us : gmap string user)
  : gmap string user :=
  alter (fun u => mkUser (user_type u) (totalTrips u) (totalKm u)
                    (wallet_balance u + x)) uid us.

Definition confirm_recharge (now : time) (uid utype : string) (txid : string)
    (db : database) : database * nat :=
  if negb (bool_decide (utype = "admin")) then (db, 403%nat)
  else
    match transactions db !! txid with
    | None => (db, 404%nat)
    | Some transaction =>
        let transaction' :=
          mkWalletTransaction (wt_userId transaction) (wt_amount transaction)
            "confirmed" (Some now) (Some uid) in
        (mkDb (orders db)
           (credit_wallet (wt_userId transaction) (wt_amount transaction) (users db))
           (vehicles db)
           (<[txid := transaction']> (transactions db)), 200%nat)
    end.

(** ** The wording of the specification, for comparison *)

(** The pairs of neighbours of a sequence, in order. *)
Fixpoint consecutive_pairs {A} (l : list A) : list (A * A) :=
  match l with
  | a :: (b :: _) as t => (a, b) :: consecutive_pairs t
  | _ => []
  end.

Definition haversine (p q : geo) : R :=
  calculateDistance (geo_lat p) (geo_lon p) (geo_lat q) (geo_lon q).

(** Sum of the great-circle distances between consecutive points. *)
Definition path_length (l : list geo) : R :=
  fold_right Rplus 0 (map (fun pq => haversine pq.1 pq.2) (consecutive_pairs l)).

(** Rounding to one decimal. *)
Definition round1 (x : R) : R := js_round (x * 10) / 10.

(** The permitted transitions of section 4.3. *)
Definition terminal (s : string) : bool :=
  bool_decide (s = "completed") || bool_decide (s = "cancelled").

Definition next_status (s : string) : option string :=
  if bool_decide (s = "pending") then Some "accepted"
  else if bool_decide (s = "accepted") then Some "driver_coming"
  else if bool_decide (s = "driver_coming") then Some "loading"
  else if bool_decide (s = "loading") then Some "in_transit"
  else if bool_decide (s = "in_transit") then Some "unloading"
  else if bool_decide (s = "unloading") then Some "completed"
  else None.

Definition permitted (from to : string) : bool :=
  bool_decide (next_status from = Some to)
  || (negb (terminal from)
      && (bool_decide (to = "cancelled") || bool_decide (to = "disputed"))).

(** ** The remaining routes of the order and payment workflow *)

(** [onlineDrivers] of [GET /api/admin/stats], line 1586. *)
Definition onlineDrivers (st : rt_state) : nat :=
  length (List.filter isOnline (jsmap_values (driverPositions st))).

(** The fields of an order document that the routes below write and that
    [order] does not carry.  They are kept under the same id in a second
    map; an id without an entry stands for a document on which none of
    them is set. *)
Record order_extra : Type := mkOrderExtra {
  acceptedAt : option time;
  cancelledAt : option time;
  cancelReason : option string;
  proofImage : option string;
  proofTransactionId : option string;
  proofSubmittedAt : option time;
  payment_confirmedAt : option time;
  payment_confirmedBy : option string
}.

Definition order_extra0 : order_extra :=
  mkOrderExtra None None None None None None None None.

Record store : Type := mkStore {
  core : database;
  order_extras : gmap string order_extra
}.

Definition extra_of (id : string) (s : store) : order_extra :=
  default order_extra0 (order_extras s !! id).

(** [io.emit] of the HTTP routes: an event sent to every connection. *)
Inductive http_emit : Type :=
| OrderStatusEvent (id : string) (st : string)
| OrderPaymentEvent (id : string) (st : string).

Definition set_order_status (o : order) (s : string) : order :=
  mkOrder (order_clientId o) (order_driverId o) s (order_serviceType o)
    (order_tracking o) (estimated_km o) (actual_km o) (order_payment o)
    (startedAt o) (completedAt o).

Definition set_payment_status (o : order) (s : string) : order :=
  mkOrder (order_clientId o) (order_driverId o) (order_status o)
    (order_serviceType o) (order_tracking o) (estimated_km o) (actual_km o)
    (mkPayment (amount (order_payment o)) (platformFee (order_payment o))
       (driverShare (order_payment o)) s)
    (startedAt o) (completedAt o).

Definition save_order (id : string) (o : order) (e : order_extra) (s : store)
  : store :=
  mkStore (mkDb (<[id := o]> (orders (core s))) (users (core s))
             (vehicles (core s)) (transactions (core s)))
          (<[id := e]> (order_extras s)).

(** [PUT /api/orders/:id/respond], lines 1308-1347. *)
Definition put_order_respond (now : time) (uid id : string) (accept : jsval)
    (s : store) : store * nat * list http_emit :=
  match orders (core s) !! id with
  | None => (s, 403%nat, [])
  | Some o =>
      match order_driverId o with
      | None => (s, 500%nat, [])
      | Some drv =>
          if negb (bool_decide (drv = uid)) then (s, 403%nat, [])
          else
            let e := extra_of id s in
            if truthy accept
            then
              (save_order id (set_order_status o "accepted")
                 (mkOrderExtra (Some now) (cancelledAt e) (cancelReason e)
                    (proofImage e) (proofTransactionId e) (proofSubmittedAt e)
                    (payment_confirmedAt e) (payment_confirmedBy e)) s,
               200%nat, [OrderStatusEvent id "accepted"])
            else
              (save_order id (set_order_status o "cancelled")
                 (mkOrderExtra (acceptedAt e) (Some now) (Some "Driver refused")
                    (proofImage e) (proofTransactionId e) (proofSubmittedAt e)
                    (payment_confirmedAt e) (payment_confirmedBy e)) s,
               200%nat, [])
      end
  end.

(** [POST /api/orders/:id/payment-proof], lines 1173-1223.  [file] is
    [None] when the request carries no file, [Some None] when the upload
    of the file fails and [Some (Some url)] when it yields [url]. *)
Definition post_payment_proof (now : time) (uid id : string)
    (file : option (option string)) (transactionId : option string)
    (s : store) : store * nat :=
  match orders (core s) !! id with
  | None => (s, 404%nat)
  | Some o =>
      if negb (bool_decide (order_clientId o = uid)) then (s, 403%nat)
      else
        match file with
        | Some None => (s, 500%nat)
        | _ =>
            let proofUrl :=
              match file with Some (Some url) => Some url | _ => None end in
            let e := extra_of id s in
            (save_order id (set_payment_status o "proof_submitted")
               (mkOrderExtra (acceptedAt e) (cancelledAt e) (cancelReason e)
                  proofUrl transactionId (Some now)
                  (payment_confirmedAt e) (payment_confirmedBy e)) s,
             200%nat)
        end
  end.

(** [POST /api/admin/confirm-payment/:orderId], lines 1626-1658. *)
Definition post_confirm_payment (now : time) (uid utype id : string)
    (s : store) : store * nat * list http_emit :=
  if negb (bool_decide (utype = "admin")) then (s, 403%nat, [])
  else
    match orders (core s) !! id with
    | None => (s, 404%nat, [])
    | Some o =>
        let e := extra_of id s in
        (save_order id (set_payment_status o "confirmed")
           (mkOrderExtra (acceptedAt e) (cancelledAt e) (cancelReason e)
              (proofImage e) (proofTransactionId e) (proofSubmittedAt e)
              (Some now) (Some uid)) s,
         200%nat, [OrderPaymentEvent id "confirmed"])
    end.

(** A route of the claims' part, run on the whole store. *)
Definition on_core (f : database → database * nat) (s : store) : store * nat :=
  (mkStore (f (core s)).1 (order_extras s), (f (core s)).2).

(** An authenticated request: [uid] is the user id the token decodes to. *)
Inductive request : Type :=
| ReqCreateOrder (uid new_id vehicleId serviceType : string)
    (pickup : geo) (dropoff : option geo)
| ReqRespond (now : time) (uid id : string) (accept : jsval)
| ReqStatus (now : time) (uid id new_status : string)
| ReqPaymentProof (now : time) (uid id : string)
    (file : option (option string)) (transactionId : option string)
| ReqConfirmPayment (now : time) (uid id : string)
| ReqConfirmRecharge (now : time) (uid txid : string).

Definition request_uid (r : request) : string :=
  match r with
  | ReqCreateOrder uid _ _ _ _ _ => uid
  | ReqRespond _ uid _ _ => uid
  | ReqStatus _ uid _ _ => uid
  | ReqPaymentProof _ uid _ _ _ => uid
  | ReqConfirmPayment _ uid _ => uid
  | ReqConfirmRecharge _ uid _ => uid
  end.

(** The second half of [authMiddleware] (the user of the token must
    exist, else 401) followed by the route; [req.user.type] is the type
    stored for that user. *)
Definition serve (r : request) (s : store) : store * nat :=
  match users (core s) !! request_uid r with
  | None => (s, 401%nat)
  | Some u =>
      match r with
      | ReqCreateOrder uid new_id vehicleId serviceType pickup dropoff =>
          on_core (post_orders uid new_id vehicleId serviceType pickup dropoff) s
      | ReqRespond now uid id accept => (put_order_respond now uid id accept s).1
      | ReqStatus now uid id new_status =>
          on_core (put_order_status now uid (user_type u) id new_status) s
      | ReqPaymentProof now uid id file transactionId =>
          post_payment_proof now uid id file transactionId s
      | ReqConfirmPayment now uid id =>
          (post_confirm_payment now uid (user_type u) id s).1
      | ReqConfirmRecharge now uid txid =>
          on_core (confirm_recharge now uid (user_type u) txid) s
      end
  end.

Fixpoint serve_all (rs : list request) (s : store) : store :=
  match rs with
  | [] => s
  | r :: rs' => serve_all rs' (serve r s).1
  end.

Definition store_init (us : gmap string user) (vs : gmap string vehicle)
  : store :=
  mkStore (mkDb ∅ us vs ∅) ∅.

(** ** Order numbers: the [pre('save')] hook of the order schema *)

(** [s.padStart(n, c)] for a one-character pad string. *)
Fixpoint string_repeat (n : nat) (c : Ascii.ascii) : string :=
  match n with
  | O => EmptyString
  | S n' => String c (string_repeat n' c)
  end.

Definition padStart (n : nat) (c : Ascii.ascii) (s : string) : string :=
  string_repeat (n - String.length s)%nat c +:+ s.

(** Lines 495-499: [`ER-${year}-${String(count + 1).padStart(5, '0')}`]. *)
Definition generate_order_number (year count : nat) : string :=
  "ER-" +:+ pretty year +:+ "-" +:+ padStart 5 "0"%char (pretty (count + 1)%nat).

(** The hook: a number is generated only when the document has none;
    [count] is the number of stored orders. *)
Definition pre_save_order_number (year count : nat)
    (orderNumber : option string) : string :=
  match orderNumber with
  | Some n => if decide (n = EmptyString) then generate_order_number year count
              else n
  | None => generate_order_number year count
  end.

(** ** The token of a request: [authMiddleware], lines 567-574 *)

(** [s.replace(pat, rep)] for a string pattern: the first occurrence. *)
Definition replace_first (pat rep s : string) : string :=
  match String.index 0 pat s with
  | Some i =>
      String.substring 0 i s +:+ rep
      +:+ String.substring (i + String.length pat)
            (String.length s - (i + String.length pat)) s
  | None => s
  end.

(** The token taken from the [authorization] header; [None] is the answer
    401 "Token requis". *)
Definition request_token (authorization : option string) : option string :=
  match authorization with
  | None => None
  | Some h =>
      let token := replace_first "Bearer " EmptyString h in
      if decide (token = EmptyString) then None else Some token
  end.

(** The middleware, given the decoder of the tokens ([jwt.verify], which
    yields the user id of a valid token): the authenticated user, or 401. *)
Definition authMiddleware (jwt_verify : string → option string)
    (authorization : option string) (us : gmap string user)
  : nat + string * user :=
  match request_token authorization with
  | None => inl 401%nat
  | Some token =>
      match jwt_verify token with
      | None => inl 401%nat
      | Some uid =>
          match us !! uid with
          | None => inl 401%nat
          | Some u => inr (uid, u)
          end
      end
  end.

(** ** Predicates used in the statements *)

(** [c] occurs in [s]. *)
Fixpoint string_has (c : Ascii.ascii) (s : string) : bool :=
  match s with
  | EmptyString => false
  | String a s' => bool_decide (a = c) || string_has c s'
  end.


(** An event that writes the registry entry of driver [d] reported on
    socket [sock]: a report for [d], or the disconnect of [sock]. *)
Definition touches_position (d sock : string) (ev : socket_event) : bool :=
  match ev with
  | EvLocation _ _ data => bool_decide (ld_driverId data = d)
  | EvDisconnect s => bool_decide (s = sock)
  | _ => false
  end.

(** The chat event [on_chat_message] sends to handle [t]. *)
Definition chat_event (now : time) (data : chat_data) (t : string) : emit :=
  EmitTo (Some t) "chat:new_message" (ChatNewMessage data now).

(** The quantity [a] of [calculateDistance], line 628: the haversine of
    the central angle. *)
Definition haversine_a (lat1 lon1 lat2 lon2 : R) : R :=
  (sin ((lat2 - lat1) * PI / 180 / 2) * sin ((lat2 - lat1) * PI / 180 / 2) +
   cos (lat1 * PI / 180) * cos (lat2 * PI / 180) *
   sin ((lon2 - lon1) * PI / 180 / 2) * sin ((lon2 - lon1) * PI / 180 / 2))%R.

(** What a request may do to an order that was already stored: client,
    driver, tracking sequence, estimate and the three payment amounts stay;
    the actual distance stays too unless there are at least two tracked
    points. *)
Definition order_kept (o o' : order) : Prop :=
  order_clientId o' = order_clientId o
  ∧ order_driverId o' = order_driverId o
  ∧ order_tracking o' = order_tracking o
  ∧ estimated_km o' = estimated_km o
  ∧ amount (order_payment o') = amount (order_payment o)
  ∧ platformFee (order_payment o') = platformFee (order_payment o)
  ∧ driverShare (order_payment o') = driverShare (order_payment o)
  ∧ (actual_km o' = actual_km o ∨ (1 < length (order_tracking o))%nat).

(** An order as [POST /api/orders] stores it. *)
Definition order_fresh (o' : order) : Prop :=
  order_status o' = "pending"
  ∧ payment_status (order_payment o') = "pending"
  ∧ order_tracking o' = []
  ∧ actual_km o' = None
  ∧ (platformFee (order_payment o') + driverShare (order_payment o')
     = amount (order_payment o'))%R.

(** The caller of the request is stored with type [admin]. *)
Definition caller_is_admin (r : request) (s : store) : Prop :=
  user_type <$> users (core s) !! request_uid r = Some "admin".

Local Close Scope R_scope.

(** The entry a location report leaves in the registry for its driver. *)
Definition stored_position (sock : string) (now : time) (data : location_data)
    (st : rt_state) : option position :=
  jsmap_get (ld_driverId data)
    (driverPositions (on_driver_location sock now data st).1).

(** * Properties *)

(** ** The insertion-ordered map *)

Section JsMap.
Context {V : Type}.
Implicit Types (m : jsmap V) (k : string) (v : V).

Lemma jsmap_get_set_eq k v m : jsmap_get k (jsmap_set k v m) = Some v.
Proof.
  induction m as [|[k' v'] m IH]; simpl.
  - by rewrite decide_True.
  - destruct (decide (k = k')) as [->|Hne]; simpl.
    + by rewrite decide_True.
    + by rewrite decide_False.
Qed.

Lemma jsmap_get_set_ne k k' v m :
  k ≠ k' → jsmap_get k' (jsmap_set k v m) = jsmap_get k' m.
Proof.
  intros Hne. induction m as [|[k0 v0] m IH]; simpl.
  - by rewrite decide_False.
  - destruct (decide (k = k0)) as [->|Hk]; simpl.
    + by rewrite !decide_False.
    + destruct (decide (k' = k0)); [done | apply IH].
Qed.

Lemma jsmap_get_set k k' v m :
  jsmap_get k' (jsmap_set k v m)
  = if decide (k' = k) then Some v else jsmap_get k' m.
Proof.
  destruct (decide (k' = k)) as [->|Hne].
  - apply jsmap_get_set_eq.
  - by apply jsmap_get_set_ne.
Qed.

Lemma jsmap_get_map (f : V → V) k m :
  jsmap_get k (map (fun e => (e.1, f e.2)) m) = f <$> jsmap_get k m.
Proof.
  induction m as [|[k' v'] m IH]; simpl; [done|].
  by destruct (decide (k = k')).
Qed.

Lemma jsmap_keys_map (f : V → V) m :
  jsmap_keys (map (fun e => (e.1, f e.2)) m) = jsmap_keys m.
Proof.
  unfold jsmap_keys. induction m as [|[k' v'] m IH]; simpl; [done|].
  f_equal. exact IH.
Qed.

Lemma jsmap_set_is_Some k k' v m :
  is_Some (jsmap_get k' m) → is_Some (jsmap_get k' (jsmap_set k v m)).
Proof.
  intros Hs. rewrite jsmap_get_set. by destruct (decide (k' = k)).
Qed.

End JsMap.

(** Writing an existing key keeps its place; a new key goes last. *)
Example jsmap_set_order :
  jsmap_keys (jsmap_set "a" 3 (jsmap_set "c" 2 (jsmap_set "a" 1 (jsmap_set "b" 0 []))))
  = ["b"; "a"; "c"].
Proof. reflexivity. Qed.

(** ** Session Table *)

Lemma track_lookup sock data st o :
  jsmap_get o (activeOrders (on_order_track sock data st).1)
  = (fun s => if decide (o = td_orderId data)
              then mkSession (orderId s) (driverId s) (driverSocketId s)
                     (Some sock) (status s)
              else s) <$> jsmap_get o (activeOrders st).
Proof.
  unfold on_order_track.
  destruct (jsmap_get (td_orderId data) (activeOrders st)) as [s|] eqn:Hs; simpl.
  - rewrite jsmap_get_set. destruct (decide (o = td_orderId data)) as [->|Hne].
    + by rewrite Hs.
    + by destruct (jsmap_get o (activeOrders st)).
  - destruct (decide (o = td_orderId data)) as [->|Hne].
    + by rewrite Hs.
    + by destruct (jsmap_get o (activeOrders st)).
Qed.

(** C1, as stated, fails: after a track request has attached the client
    handle, a second accept event for the same order stores a fresh entry
    whose client handle is null. *)
Lemma accept_resets_client_handle :
  let st1 := (on_driver_accept_order "sockD" (mkAcceptData "o1" "d1") rt_init).1 in
  let st2 := (on_order_track "sockC" (mkTrackData "o1" "c1") st1).1 in
  let st3 := (on_driver_accept_order "sockD" (mkAcceptData "o1" "d1") st2).1 in
  clientSocketId <$> jsmap_get "o1" (activeOrders st2) = Some (Some "sockC")
  ∧ clientSocketId <$> jsmap_get "o1" (activeOrders st3) = Some None.
Proof. split; reflexivity. Qed.

(** C1, amended: a track request changes nothing but the client handle of
    the entry it names, so the driver handle, driver id and status of every
    entry survive it; an accept event replaces the whole entry of its order
    by one whose client handle is null, and leaves the other entries alone. *)
Theorem track_keeps_driver_fields_accept_replaces_entry
    (sock : string) (st : rt_state) :
  (∀ (data : track_data) (o : string),
     let st' := (on_order_track sock data st).1 in
     driverSocketId <$> jsmap_get o (activeOrders st')
       = driverSocketId <$> jsmap_get o (activeOrders st)
     ∧ driverId <$> jsmap_get o (activeOrders st')
       = driverId <$> jsmap_get o (activeOrders st)
     ∧ status <$> jsmap_get o (activeOrders st')
       = status <$> jsmap_get o (activeOrders st)
     ∧ clientSocketId <$> jsmap_get o (activeOrders st')
       = (fun s => if decide (o = td_orderId data) then Some sock
                   else clientSocketId s) <$> jsmap_get o (activeOrders st))
  ∧ (∀ (data : accept_data) (o : string),
       jsmap_get o (activeOrders (on_driver_accept_order sock data st).1)
       = if decide (o = ad_orderId data)
         then Some (mkSession (ad_orderId data) (ad_driverId data) sock None
                      "accepted")
         else jsmap_get o (activeOrders st)).
Proof.
  split.
  - intros data o. simpl. rewrite track_lookup.
    destruct (jsmap_get o (activeOrders st)) as [s|]; simpl; [|done].
    by destruct (decide (o = td_orderId data)).
  - intros data o. simpl. apply jsmap_get_set.
Qed.

(** C8, as stated, fails: a track request for an order id that has no
    session creates no entry. *)
Lemma track_unknown_order_creates_nothing :
  let st' := (on_order_track "sockC" (mkTrackData "o1" "c1") rt_init).1 in
  jsmap_get "o1" (activeOrders rt_init) = None
  ∧ jsmap_get "o1" (activeOrders st') = None
  ∧ st' = rt_init.
Proof. repeat split; reflexivity. Qed.

(** C8, amended: a track request for an order id that has no session is a
    no-op: nothing is emitted, the state is unchanged and the order id
    still has no entry. *)
Theorem track_unknown_order_is_noop
    (sock : string) (data : track_data) (st : rt_state) :
  jsmap_get (td_orderId data) (activeOrders st) = None →
  on_order_track sock data st = (st, [])
  ∧ jsmap_get (td_orderId data) (activeOrders (on_order_track sock data st).1)
    = None.
Proof.
  intros Hnone. unfold on_order_track. rewrite Hnone. by split.
Qed.

Lemma track_unknown_order_is_noop_witness :
  jsmap_get "o7" (activeOrders rt_init) = None
  ∧ on_order_track "sockC" (mkTrackData "o7" "c1") rt_init = (rt_init, []).
Proof.
  split; [reflexivity|].
  apply (track_unknown_order_is_noop "sockC" (mkTrackData "o7" "c1") rt_init).
  reflexivity.
Defined.

(** ** Position Registry *)

Lemma report_lookup sock now data st d :
  jsmap_get d (driverPositions (on_driver_location sock now data st).1)
  = if decide (d = ld_driverId data)
    then Some (make_position sock now data)
    else jsmap_get d (driverPositions st).
Proof. simpl. apply jsmap_get_set. Qed.

Lemma disconnect_lookup sock st d :
  jsmap_get d (driverPositions (on_disconnect sock st).1)
  = mark_offline sock <$> jsmap_get d (driverPositions st).
Proof. simpl. apply jsmap_get_map. Qed.

(** Last write wins: two reports of one driver, then the socket of the
    second report goes away. *)
Example report_report_disconnect :
  let d1 := mkLocationData "d1" (JNum 6) (JNum 2) JUndefined JUndefined
              JUndefined JUndefined in
  let d2 := mkLocationData "d1" (JNum 7) (JNum 3) (JNum 40) JUndefined
              (JNum 55) (JBool false) in
  let st2 := run [EvLocation "s1" 1 d1; EvLocation "s2" 2 d2] rt_init in
  let st3 := run [EvDisconnect "s1"] st2 in
  jsmap_get "d1" (driverPositions st2) = Some (make_position "s2" 2 d2)
  ∧ jsmap_keys (driverPositions st2) = ["d1"]
  ∧ st3 = st2.
Proof. cbn zeta. split; [|split]; reflexivity. Qed.

(** No handler removes a key of the registry. *)
Lemma handle_keeps_entries ev st d :
  is_Some (jsmap_get d (driverPositions st)) →
  is_Some (jsmap_get d (driverPositions (handle ev st).1)).
Proof.
  intros Hs. destruct ev as [sock now data|sock data|sock data|sock now data|sock].
  - simpl. by apply jsmap_set_is_Some.
  - simpl. unfold on_order_track.
    by destruct (jsmap_get (td_orderId data) (activeOrders st)).
  - done.
  - simpl. unfold on_chat_message.
    destruct (jsmap_get (cd_orderId data) (activeOrders st)) as [s|]; [|done].
    destruct (decide (cd_senderType data = "client")); simpl.
    + by destruct (decide (driverSocketId s = EmptyString)).
    + destruct (clientSocketId s) as [t|]; [|done].
      by destruct (decide (t = EmptyString)).
  - cbn [handle]. rewrite disconnect_lookup. by apply fmap_is_Some.
Qed.

Lemma run_keeps_entries evs : ∀ st d,
  is_Some (jsmap_get d (driverPositions st)) →
  is_Some (jsmap_get d (driverPositions (run evs st))).
Proof.
  induction evs as [|ev evs IH]; intros st d Hs; simpl; [done|].
  apply IH. by apply handle_keeps_entries.
Qed.

(** C6, as stated, fails: the handler gives back nothing that depends on
    the entry it replaces.  The same report on a registry where the driver
    was online and on one where the driver was offline has one and the same
    result, new state and emitted events alike, so no previous online flag
    can be read off it. *)
Lemma report_result_ignores_previous_online_flag :
  let data := mkLocationData "d1" (JNum 6) (JNum 2) (JNum 40) (JNum 90)
                (JNum 80) (JBool true) in
  let was_online := mkPosition (JNum 5) (JNum 1) (JNum 0) (JNum 0) (JNum 70)
                      true 3 "s1" in
  let was_offline := mkPosition (JNum 5) (JNum 1) (JNum 0) (JNum 0) (JNum 70)
                       false 3 "s1" in
  let st_on := mkRt [("d1", was_online)] [] in
  let st_off := mkRt [("d1", was_offline)] [] in
  isOnline <$> jsmap_get "d1" (driverPositions st_on) = Some true
  ∧ isOnline <$> jsmap_get "d1" (driverPositions st_off) = Some false
  ∧ on_driver_location "s1" 7 data st_on = on_driver_location "s1" 7 data st_off.
Proof. repeat split; reflexivity. Qed.

(** C6, amended: a location report replaces the driver's entry
    unconditionally by the position built from the report alone (no field
    of the replaced entry survives) and leaves every other entry and the
    session table as they were; what the handler emits does not depend on
    the registry, so the previous online flag is neither returned nor
    emitted. *)
Theorem report_replaces_entry_wholesale
    (sock : string) (now : time) (data : location_data) (st : rt_state) :
  (∀ d, jsmap_get d (driverPositions (on_driver_location sock now data st).1)
        = if decide (d = ld_driverId data)
          then Some (make_position sock now data)
          else jsmap_get d (driverPositions st))
  ∧ activeOrders (on_driver_location sock now data st).1 = activeOrders st
  ∧ (∀ dp dp' : jsmap position,
       let r := on_driver_location sock now data (mkRt dp (activeOrders st)) in
       let r' := on_driver_location sock now data (mkRt dp' (activeOrders st)) in
       r.2 = r'.2
       ∧ jsmap_get (ld_driverId data) (driverPositions r.1)
         = jsmap_get (ld_driverId data) (driverPositions r'.1)).
Proof.
  split; [|split].
  - intros d. apply report_lookup.
  - done.
  - intros dp dp'. split; [done|].
    rewrite !report_lookup. by rewrite !decide_True.
Qed.

(** C7: a disconnect of handle [H] turns [isOnline] to false in exactly
    the entries bound to [H], keeping their other fields, and changes no
    other entry, no key and no session; no socket event ever removes an
    entry, so a driver that never reported (no entry) stays distinguishable
    from one that reported and then disconnected (an offline entry). *)
Theorem disconnect_marks_bound_entries_offline (H : string) (st : rt_state) :
  let st' := (on_disconnect H st).1 in
  (∀ d, jsmap_get d (driverPositions st')
        = (fun pos => if decide (socketId pos = H)
                      then mkPosition (lat pos) (lon pos) (speed pos)
                             (heading pos) (battery pos) false
                             (lastUpdate pos) (socketId pos)
                      else pos) <$> jsmap_get d (driverPositions st))
  ∧ jsmap_keys (driverPositions st') = jsmap_keys (driverPositions st)
  ∧ activeOrders st' = activeOrders st
  ∧ (∀ d, jsmap_get d (driverPositions st') = None
          ↔ jsmap_get d (driverPositions st) = None)
  ∧ (∀ (evs : list socket_event) (d : string),
       is_Some (jsmap_get d (driverPositions st)) →
       is_Some (jsmap_get d (driverPositions (run evs st)))).
Proof.
  cbn zeta. split; [|split; [|split; [|split]]].
  - intros d. apply disconnect_lookup.
  - simpl. apply jsmap_keys_map.
  - done.
  - intros d. rewrite disconnect_lookup. apply fmap_None.
  - intros evs d. apply run_keeps_entries.
Qed.

Lemma disconnect_marks_bound_entries_offline_witness :
  let bound := mkPosition (JNum 6) (JNum 2) (JNum 0) (JNum 0) (JNum 100)
                 true 1 "s1" in
  let other := mkPosition (JNum 7) (JNum 3) (JNum 0) (JNum 0) (JNum 100)
                 true 2 "s2" in
  let st := mkRt [("d1", bound); ("d2", other)] [] in
  let st' := (on_disconnect "s1" st).1 in
  isOnline <$> jsmap_get "d1" (driverPositions st') = Some false
  ∧ jsmap_get "d2" (driverPositions st') = Some other
  ∧ jsmap_get "d3" (driverPositions st') = None
  ∧ is_Some (jsmap_get "d1" (driverPositions (run [EvDisconnect "s1"] st))).
Proof.
  cbn zeta.
  set (st := mkRt _ _).
  destruct (disconnect_marks_bound_entries_offline "s1" st)
    as (Hget & _ & _ & _ & Hkeep).
  split; [|split; [|split]].
  - rewrite (Hget "d1"). reflexivity.
  - rewrite (Hget "d2"). reflexivity.
  - rewrite (Hget "d3"). reflexivity.
  - apply (Hkeep [EvDisconnect "s1"] "d1"). simpl. eauto.
Defined.

Lemma truthy_num (x : R) : truthy (JNum x) = if Req_dec_T x 0 then false else true.
Proof. reflexivity. Qed.

Lemma js_or_num (x d : R) :
  js_or (JNum x) (JNum d) = if Req_dec_T x 0 then JNum d else JNum x.
Proof. unfold js_or. rewrite truthy_num. by destruct (Req_dec_T x 0). Qed.

(** C10: the stored entry applies falsy-value defaulting.  An absent
    (undefined or null) speed or heading is stored as 0; an absent battery
    and a battery of exactly 0 are stored as 100, any other number as it
    is; [isOnline] is stored as false for the literal false and as true for
    every other value, an omitted one included. *)
Theorem location_report_falsy_defaults
    (sock : string) (now : time) (st : rt_state)
    (d : string) (la lo sp hd bat onl : jsval) :
  let stored sp hd bat onl :=
    stored_position sock now (mkLocationData d la lo sp hd bat onl) st in
  speed <$> stored JUndefined hd bat onl = Some (JNum 0)
  ∧ speed <$> stored JNull hd bat onl = Some (JNum 0)
  ∧ heading <$> stored sp JUndefined bat onl = Some (JNum 0)
  ∧ heading <$> stored sp JNull bat onl = Some (JNum 0)
  ∧ battery <$> stored sp hd JUndefined onl = Some (JNum 100)
  ∧ battery <$> stored sp hd JNull onl = Some (JNum 100)
  ∧ battery <$> stored sp hd (JNum 0) onl = Some (JNum 100)
  ∧ (∀ x : R, battery <$> stored sp hd (JNum x) onl
              = Some (if Req_dec_T x 0 then JNum 100 else JNum x))
  ∧ (∀ x : R, speed <$> stored (JNum x) hd bat onl = Some (JNum x))
  ∧ (∀ x : R, heading <$> stored sp (JNum x) bat onl = Some (JNum x))
  ∧ isOnline <$> stored sp hd bat (JBool false) = Some false
  ∧ isOnline <$> stored sp hd bat JUndefined = Some true
  ∧ isOnline <$> stored sp hd bat JNull = Some true
  ∧ isOnline <$> stored sp hd bat (JBool true) = Some true
  ∧ (∀ x : R, isOnline <$> stored sp hd bat (JNum x) = Some true)
  ∧ (∀ s : string, isOnline <$> stored sp hd bat (JStr s) = Some true).
Proof.
  cbn zeta. unfold stored_position.
  repeat split; intros; rewrite report_lookup, decide_True by done;
    cbn [fmap option_fmap option_map make_position speed heading battery
         isOnline ld_speed ld_heading ld_battery ld_isOnline
         strict_neq_false]; try reflexivity.
  - rewrite js_or_num. destruct (Req_dec_T 0 0) as [_|Hne]; [done|].
    by destruct Hne.
  - by rewrite js_or_num.
  - rewrite js_or_num. by destruct (Req_dec_T x 0) as [->|_].
  - rewrite js_or_num. by destruct (Req_dec_T x 0) as [->|_].
Qed.

(** ** Numbers and distances *)

Local Open Scope R_scope.

Lemma js_round_IZR (z : Z) : js_round (IZR z) = IZR z.
Proof. unfold js_round. f_equal. apply Zfloor_eq. lra. Qed.

Lemma js_round_0 : js_round 0 = 0.
Proof. apply (js_round_IZR 0). Qed.

Lemma num_truthy_true (x : R) : x ≠ 0 → num_truthy x = true.
Proof. intros Hx. unfold num_truthy. by destruct (Req_dec_T x 0). Qed.

Lemma num_truthy_0 : num_truthy 0 = false.
Proof. unfold num_truthy. destruct (Req_dec_T 0 0) as [_|Hne]; [done|]. by destruct Hne. Qed.


Lemma num_or_Some_0 (d : R) : num_or (Some 0) d = d.
Proof. simpl. by rewrite num_truthy_0. Qed.

(** With default 0 the fallback is the value itself. *)
Lemma num_or_default_0 (x : option R) : num_or x 0 = default 0 x.
Proof.
  destruct x as [v|]; simpl; [|done].
  unfold num_truthy. by destruct (Req_dec_T v 0) as [->|_].
Qed.

Lemma atan2_0_1 : atan2 0 1 = 0.
Proof.
  unfold atan2. destruct (Rlt_dec 0 1) as [_|Hn]; [|exfalso; lra].
  replace (0 / 1) with 0 by lra. apply atan_0.
Qed.

(** The distance from a point to itself is zero. *)
Lemma calculateDistance_same (la lo : R) : calculateDistance la lo la lo = 0.
Proof.
  unfold calculateDistance.
  replace ((la - la) * PI / 180 / 2) with 0 by lra.
  replace ((lo - lo) * PI / 180 / 2) with 0 by lra.
  rewrite sin_0.
  replace (0 * 0 + cos (la * PI / 180) * cos (la * PI / 180) * 0 * 0)
    with 0 by lra.
  replace (1 - 0) with 1 by lra.
  rewrite sqrt_0, sqrt_1, atan2_0_1. lra.
Qed.

Lemma path_length_cons2 (a b : geo) (l : list geo) :
  path_length (a :: b :: l) = haversine a b + path_length (b :: l).
Proof. reflexivity. Qed.

(** The index loop, started after a prefix [pre] with running total [acc]. *)
Lemma tracking_loop_from (rest : list geo) : ∀ (pre : list geo) (a : geo) (acc : R),
  fold_left
    (fun totalKm i =>
       totalKm +
       calculateDistance
         (geo_lat (nth (i - 1) (pre ++ a :: rest) geo0))
         (geo_lon (nth (i - 1) (pre ++ a :: rest) geo0))
         (geo_lat (nth i (pre ++ a :: rest) geo0))
         (geo_lon (nth i (pre ++ a :: rest) geo0)))
    (seq (S (length pre)) (length rest)) acc
  = acc + path_length (a :: rest).
Proof.
  induction rest as [|b rest IH]; intros pre a acc.
  - simpl. unfold path_length. simpl. lra.
  - cbn [length seq fold_left].
    replace (S (length pre) - 1)%nat with (length pre) by lia.
    rewrite (nth_middle pre (b :: rest) a geo0).
    replace (nth (S (length pre)) (pre ++ a :: b :: rest) geo0) with b.
    2:{ replace (pre ++ a :: b :: rest) with ((pre ++ [a]) ++ b :: rest)
          by (by rewrite <- app_assoc).
        replace (S (length pre)) with (length (pre ++ [a]))
          by (rewrite length_app; simpl; lia).
        by rewrite nth_middle. }
    specialize (IH (pre ++ [a]) b
      (acc + calculateDistance (geo_lat a) (geo_lon a) (geo_lat b) (geo_lon b))).
    rewrite <- app_assoc in IH. simpl in IH.
    rewrite length_app in IH. simpl in IH.
    replace (length pre + 1)%nat with (S (length pre)) in IH by lia.
    rewrite IH, path_length_cons2. unfold haversine. lra.
Qed.

(** The loop of the [completed] branch adds up the distances between
    consecutive tracked points, in stored order. *)
Lemma tracking_total_km_path_length (tracking : list geo) :
  tracking_total_km tracking = path_length tracking.
Proof.
  destruct tracking as [|a rest]; [reflexivity|].
  unfold tracking_total_km. cbn [length].
  replace (S (length rest) - 1)%nat with (length rest) by lia.
  pose proof (tracking_loop_from rest [] a 0) as Hloop.
  change ([] ++ a :: rest) with (a :: rest) in Hloop.
  change (S (length (@nil geo))) with 1%nat in Hloop.
  rewrite Hloop. lra.
Qed.

(** ** Order creation *)




(** ** Order status *)

Lemma authorized_guard (drv uid utype : string) :
  drv = uid ∨ utype = "admin" →
  negb (bool_decide (drv = uid)) && negb (bool_decide (utype = "admin")) = false.
Proof.
  intros [->| ->].
  - by rewrite bool_decide_eq_true_2.
  - rewrite (bool_decide_eq_true_2 ("admin" = "admin")) by done.
    by destruct (bool_decide (drv = uid)).
Qed.

(** What an authorised caller's request for an admissible status does. *)
Lemma put_order_status_ok now uid utype id new_status db o drv :
  orders db !! id = Some o →
  order_driverId o = Some drv →
  drv = uid ∨ utype = "admin" →
  new_status ∈ order_status_enum →
  put_order_status now uid utype id new_status db
  = (let completed := bool_decide (new_status = "completed") in
     let actual := if completed then completed_actual_km o else actual_km o in
     mkDb (<[id := mkOrder (order_clientId o) (order_driverId o) new_status
                     (order_serviceType o) (order_tracking o) (estimated_km o)
                     actual (order_payment o)
                     (if bool_decide (new_status = "in_transit")
                      then Some now else startedAt o)
                     (if completed then Some now else completedAt o)]>
             (orders db))
          (if completed
           then inc_driver_stats drv 1 (stats_km actual (estimated_km o)) (users db)
           else users db)
          (vehicles db) (transactions db), 200%nat).
Proof.
  intros Ho Hd Hauth Hin. unfold put_order_status.
  rewrite Ho, Hd, (authorized_guard _ _ _ Hauth).
  by rewrite (bool_decide_eq_true_2 _ Hin).
Qed.

Lemma completed_in_enum : "completed" ∈ order_status_enum.
Proof. unfold order_status_enum. set_solver. Qed.

Lemma put_completed_ok now uid utype id db o drv :
  orders db !! id = Some o →
  order_driverId o = Some drv →
  drv = uid ∨ utype = "admin" →
  put_order_status now uid utype id "completed" db
  = (mkDb (<[id := mkOrder (order_clientId o) (order_driverId o) "completed"
                     (order_serviceType o) (order_tracking o) (estimated_km o)
                     (completed_actual_km o) (order_payment o) (startedAt o)
                     (Some now)]> (orders db))
          (inc_driver_stats drv 1
             (stats_km (completed_actual_km o) (estimated_km o)) (users db))
          (vehicles db) (transactions db), 200%nat).
Proof.
  intros Ho Hd Hauth.
  rewrite (put_order_status_ok _ _ _ _ _ _ _ _ Ho Hd Hauth completed_in_enum).
  reflexivity.
Qed.

Lemma completed_actual_km_tracked (o : order) :
  (2 ≤ length (order_tracking o))%nat →
  completed_actual_km o = Some (round1 (path_length (order_tracking o))).
Proof.
  intros Hlen. unfold completed_actual_km.
  rewrite bool_decide_eq_true_2 by lia.
  by rewrite tracking_total_km_path_length.
Qed.

(** A request that is not answered with 200 leaves the store as it was. *)
Lemma put_order_status_rejected now uid utype id new_status db :
  (put_order_status now uid utype id new_status db).2 ≠ 200%nat →
  (put_order_status now uid utype id new_status db).1 = db.
Proof.
  unfold put_order_status.
  destruct (orders db !! id) as [o|]; [|done].
  destruct (order_driverId o) as [drv|]; [|done].
  destruct (negb (bool_decide (drv = uid)) && negb (bool_decide (utype = "admin")));
    [done|].
  destruct (bool_decide (new_status ∈ order_status_enum)) eqn:Hin; [done|].
  intros _. cbn [fst].
  apply bool_decide_eq_false_1 in Hin.
  rewrite bool_decide_eq_false_2.
  - by destruct db.
  - intros ->. apply Hin, completed_in_enum.
Qed.

(** C2, as stated, fails: the driver of a pending order asks for
    [completed]; the transition is outside the permitted graph, yet the
    request is answered with 200 and the stored status becomes
    [completed]. *)
Lemma pending_to_completed_is_accepted :
  let o := mkOrder "c1" (Some "d1") "pending" "transport" [] None None
             (mkPayment 3000 450 2550 "pending") None None in
  let db := mkDb {["o1" := o]} ∅ ∅ ∅ in
  let r := put_order_status 5 "d1" "driver" "o1" "completed" db in
  permitted "pending" "completed" = false
  ∧ r.2 = 200%nat
  ∧ order_status <$> orders r.1 !! "o1" = Some "completed".
Proof.
  cbn zeta. split; [by vm_compute|].
  erewrite put_completed_ok;
    [|apply lookup_singleton_eq|reflexivity|by left].
  split; [done|]. cbn [fst orders]. by rewrite lookup_insert_eq.
Qed.

(** C2, amended: no transition graph is enforced.  A status update is
    accepted exactly when the order exists and has a driver, the caller is
    that driver or an admin, and the requested value is one of the nine
    status names of the schema; an accepted update stores the requested
    status whatever the current one is, and a request that is not accepted
    leaves the store unchanged. *)
Theorem status_update_checks_caller_and_name_only
    (now : time) (uid utype id new_status : string) (db : database) :
  let r := put_order_status now uid utype id new_status db in
  (r.2 = 200%nat
   ↔ ∃ o drv, orders db !! id = Some o ∧ order_driverId o = Some drv
              ∧ (drv = uid ∨ utype = "admin")
              ∧ new_status ∈ order_status_enum)
  ∧ (r.2 = 200%nat → order_status <$> orders r.1 !! id = Some new_status)
  ∧ (r.2 ≠ 200%nat → r.1 = db).
Proof.
  cbn zeta.
  assert (Hiff : (put_order_status now uid utype id new_status db).2 = 200%nat
    ↔ ∃ o drv, orders db !! id = Some o ∧ order_driverId o = Some drv
               ∧ (drv = uid ∨ utype = "admin")
               ∧ new_status ∈ order_status_enum).
  { split.
    - unfold put_order_status.
      destruct (orders db !! id) as [o|]; [|done].
      destruct (order_driverId o) as [drv|] eqn:Hd; [|done].
      destruct (bool_decide (drv = uid)) eqn:Hu;
        destruct (bool_decide (utype = "admin")) eqn:Ha; cbn [negb andb];
        try done;
        (destruct (bool_decide (new_status ∈ order_status_enum)) eqn:Hin;
         [|done]); intros _; exists o, drv;
        apply bool_decide_eq_true_1 in Hin.
      + apply bool_decide_eq_true_1 in Hu. eauto.
      + apply bool_decide_eq_true_1 in Hu. eauto.
      + apply bool_decide_eq_true_1 in Ha. eauto.
    - intros (o & drv & Ho & Hd & Hauth & Hin).
      by rewrite (put_order_status_ok _ _ _ _ _ _ _ _ Ho Hd Hauth Hin). }
  split; [exact Hiff|]. split.
  - intros Hok. apply Hiff in Hok as (o & drv & Ho & Hd & Hauth & Hin).
    rewrite (put_order_status_ok _ _ _ _ _ _ _ _ Ho Hd Hauth Hin).
    cbn [fst orders]. by rewrite lookup_insert_eq.
  - apply put_order_status_rejected.
Qed.

Lemma status_update_checks_caller_and_name_only_witness :
  let o := mkOrder "c2" (Some "d2") "loading" "transport" [] None None
             (mkPayment 3000 450 2550 "pending") None None in
  let db := mkDb {["o2" := o]} ∅ ∅ ∅ in
  let r := put_order_status 9 "d2" "driver" "o2" "accepted" db in
  r.2 = 200%nat ∧ order_status <$> orders r.1 !! "o2" = Some "accepted".
Proof.
  cbn zeta.
  set (o := mkOrder _ _ _ _ _ _ _ _ _ _).
  destruct (status_update_checks_caller_and_name_only 9 "d2" "driver" "o2"
              "accepted" (mkDb {["o2" := o]} ∅ ∅ ∅)) as (Hiff & Hstored & _).
  assert (Hok : (put_order_status 9 "d2" "driver" "o2" "accepted"
                   (mkDb {["o2" := o]} ∅ ∅ ∅)).2 = 200%nat).
  { apply Hiff. exists o, "d2". split; [apply lookup_singleton_eq|].
    split; [reflexivity|]. split; [by left|].
    apply list_elem_of_further, list_elem_of_here. }
  split; [exact Hok | exact (Hstored Hok)].
Defined.

(** C5, as stated, fails when the tracked distance rounds to zero: the
    actual distance is then available (0), but the driver's cumulative
    distance grows by the estimated distance instead.  Two identical
    tracked points, estimated distance 12. *)
Lemma zero_actual_km_falls_back_to_estimate :
  let p := mkGeo 6.37 2.39 in
  let o := mkOrder "c1" (Some "d1") "unloading" "transport" [p; p] (Some 12)
             None (mkPayment 3000 450 2550 "pending") None None in
  let db := mkDb {["o1" := o]} {["d1" := mkUser "driver" 0 0 0]} ∅ ∅ in
  let r := put_order_status 5 "d1" "driver" "o1" "completed" db in
  actual_km <$> orders r.1 !! "o1" = Some (Some 0)
  ∧ totalKm <$> users r.1 !! "d1" = Some 12.
Proof.
  cbn zeta.
  set (o := mkOrder _ _ _ _ _ _ _ _ _ _).
  assert (Hkm : completed_actual_km o = Some 0).
  { rewrite completed_actual_km_tracked by (simpl; lia).
    f_equal. unfold round1. cbn [order_tracking o].
    rewrite path_length_cons2. unfold haversine at 1.
    rewrite calculateDistance_same.
    replace ((0 + path_length [mkGeo 6.37 2.39]) * 10) with 0
      by (unfold path_length; simpl; lra).
    rewrite js_round_0. lra. }
  erewrite put_completed_ok;
    [|apply lookup_singleton_eq|reflexivity|by left].
  cbn [fst orders users]. rewrite lookup_insert_eq. cbn [fmap option_fmap option_map actual_km].
  split; [by rewrite Hkm|].
  unfold inc_driver_stats. rewrite lookup_alter_eq, lookup_singleton_eq.
  cbn [fmap option_fmap option_map totalKm]. f_equal.
  rewrite Hkm. unfold stats_km. rewrite num_or_Some_0, num_or_default_0.
  simpl. lra.
Qed.

(** C5, amended: completing an order with at least two tracked points
    sets [actual_km] to the sum of the haversine distances between
    consecutive tracked points in stored order, rounded to one decimal,
    and adds 1 to the driver's trip count and, to the driver's cumulative
    distance, that actual distance when it is not zero, otherwise the
    estimated distance if there is one, else zero. *)
Theorem completing_order_sets_actual_km
    (now : time) (uid utype id drv : string) (db : database)
    (o : order) (u : user) :
  orders db !! id = Some o →
  order_driverId o = Some drv →
  users db !! drv = Some u →
  drv = uid ∨ utype = "admin" →
  (2 ≤ length (order_tracking o))%nat →
  let r := put_order_status now uid utype id "completed" db in
  let km := round1 (path_length (order_tracking o)) in
  r.2 = 200%nat
  ∧ (∃ o', orders r.1 !! id = Some o'
           ∧ order_status o' = "completed"
           ∧ actual_km o' = Some km)
  ∧ (∃ u', users r.1 !! drv = Some u'
           ∧ totalTrips u' = totalTrips u + 1
           ∧ totalKm u' = totalKm u
               + if Req_dec_T km 0 then default 0 (estimated_km o) else km).
Proof.
  intros Ho Hd Hu Hauth Hlen. cbn zeta.
  rewrite (put_completed_ok _ _ _ _ _ _ _ Ho Hd Hauth).
  rewrite (completed_actual_km_tracked _ Hlen).
  split; [done|]. split.
  - eexists. split; [apply lookup_insert_eq|]. by split.
  - eexists. split.
    + cbn [fst users]. unfold inc_driver_stats.
      rewrite lookup_alter_eq, Hu. reflexivity.
    + split; [reflexivity|]. cbn [totalKm]. f_equal.
      unfold stats_km. cbn [num_or]. unfold num_truthy.
      destruct (Req_dec_T (round1 (path_length (order_tracking o))) 0);
        [apply num_or_default_0 | done].
Qed.

Lemma completing_order_sets_actual_km_witness :
  let p := mkGeo 6.37 2.39 in
  let q := mkGeo 6.4 2.42 in
  let s := mkGeo 6.45 2.5 in
  let o := mkOrder "c1" (Some "d1") "unloading" "transport" [p; q; s] (Some 12)
             None (mkPayment 3000 450 2550 "pending") None None in
  let db := mkDb {["o1" := o]} {["d1" := mkUser "driver" 0 0 0]} ∅ ∅ in
  let r := put_order_status 5 "d1" "driver" "o1" "completed" db in
  r.2 = 200%nat
  ∧ ∃ o', orders r.1 !! "o1" = Some o'
          ∧ actual_km o' = Some (round1 (haversine p q + (haversine q s + 0))).
Proof.
  cbn zeta.
  set (o := mkOrder _ _ _ _ _ _ _ _ _ _).
  destruct (completing_order_sets_actual_km 5 "d1" "driver" "o1" "d1"
              (mkDb {["o1" := o]} {["d1" := mkUser "driver" 0 0 0]} ∅ ∅)
              o (mkUser "driver" 0 0 0))
    as (Hcode & (o' & Ho' & _ & Hkm) & _).
  - apply lookup_singleton_eq.
  - reflexivity.
  - apply lookup_singleton_eq.
  - by left.
  - simpl. lia.
  - split; [exact Hcode|]. exists o'. split; [exact Ho' | exact Hkm].
Defined.

(** [n] status updates to [completed] in a row. *)
Lemma repeated_completion_state now uid utype id db o drv u (n : nat) :
  orders db !! id = Some o →
  order_driverId o = Some drv →
  users db !! drv = Some u →
  drv = uid ∨ utype = "admin" →
  let db_n := Nat.iter n
                (fun d => (put_order_status now uid utype id "completed" d).1) db in
  ∃ o_n u_n,
    orders db_n !! id = Some o_n
    ∧ order_driverId o_n = Some drv
    ∧ completed_actual_km o_n = completed_actual_km o
    ∧ users db_n !! drv = Some u_n
    ∧ totalTrips u_n = totalTrips u + INR n.
Proof.
  intros Ho Hd Hu Hauth. cbn zeta.
  induction n as [|n (o_n & u_n & Hon & Hdn & Hkm & Hun & Htrips)].
  - exists o, u. simpl. repeat split; try done. lra.
  - rewrite Nat.iter_succ.
    rewrite (put_completed_ok _ _ _ _ _ _ _ Hon Hdn Hauth).
    eexists. eexists. cbn [fst orders users].
    split; [apply lookup_insert_eq|]. split; [exact Hdn|]. split.
    + unfold completed_actual_km at 1. cbn [order_tracking actual_km].
      rewrite <- Hkm. unfold completed_actual_km.
      by destruct (bool_decide (1 < length (order_tracking o_n))%nat).
    + split.
      * unfold inc_driver_stats. rewrite lookup_alter_eq, Hun. reflexivity.
      * cbn [totalTrips]. rewrite Htrips, S_INR. lra.
Qed.

(** C9, as stated, fails: a second status update to [completed] on the
    same order is accepted and increments the driver's trip count again. *)
Lemma second_completion_counts_again :
  let p := mkGeo 6.37 2.39 in
  let o := mkOrder "c1" (Some "d1") "unloading" "transport" [p; p] (Some 12)
             None (mkPayment 3000 450 2550 "pending") None None in
  let db := mkDb {["o1" := o]} {["d1" := mkUser "driver" 0 0 0]} ∅ ∅ in
  let r1 := put_order_status 5 "d1" "driver" "o1" "completed" db in
  let r2 := put_order_status 6 "d1" "driver" "o1" "completed" r1.1 in
  order_status <$> orders r1.1 !! "o1" = Some "completed"
  ∧ totalTrips <$> users r1.1 !! "d1" = Some 1
  ∧ r2.2 = 200%nat
  ∧ totalTrips <$> users r2.1 !! "d1" = Some 2.
Proof.
  cbn zeta.
  set (o := mkOrder _ _ _ _ _ _ _ _ _ _).
  erewrite (put_completed_ok 5);
    [|apply lookup_singleton_eq|reflexivity|by left].
  cbn [fst].
  erewrite (put_completed_ok 6);
    [|cbn [orders]; apply lookup_insert_eq|reflexivity|by left].
  cbn [fst snd orders users]. unfold inc_driver_stats.
  rewrite lookup_insert_eq, !lookup_alter_eq, lookup_singleton_eq.
  cbn [fmap option_fmap option_map totalTrips order_status].
  split; [done|]. split; [f_equal; lra|]. split; [done|]. f_equal. lra.
Qed.

(** C9, amended: nothing guards the [completed] branch.  Every accepted
    status update to [completed], a repeated one included, computes
    [actual_km] from the stored tracking sequence again and increments the
    driver's counters again: after [n] such updates the trip count has
    grown by [n], and one more is still answered with 200 and stores the
    value computed from the tracking sequence. *)
Theorem repeated_completion_repeats_effects
    (now : time) (uid utype id drv : string) (db : database)
    (o : order) (u : user) (n : nat) :
  orders db !! id = Some o →
  order_driverId o = Some drv →
  users db !! drv = Some u →
  drv = uid ∨ utype = "admin" →
  let db_n := Nat.iter n
                (fun d => (put_order_status now uid utype id "completed" d).1) db in
  let r := put_order_status now uid utype id "completed" db_n in
  totalTrips <$> users db_n !! drv = Some (totalTrips u + INR n)
  ∧ r.2 = 200%nat
  ∧ actual_km <$> orders r.1 !! id = Some (completed_actual_km o)
  ∧ totalTrips <$> users r.1 !! drv = Some (totalTrips u + INR n + 1).
Proof.
  intros Ho Hd Hu Hauth. cbn zeta.
  destruct (repeated_completion_state now uid utype id db o drv u n Ho Hd Hu Hauth)
    as (o_n & u_n & Hon & Hdn & Hkm & Hun & Htrips).
  cbn zeta in *.
  rewrite (put_completed_ok _ _ _ _ _ _ _ Hon Hdn Hauth).
  cbn [fst snd orders users]. unfold inc_driver_stats.
  rewrite Hun, lookup_insert_eq, lookup_alter_eq, Hun.
  cbn [fmap option_fmap option_map totalTrips actual_km].
  rewrite Htrips, Hkm. done.
Qed.

Lemma repeated_completion_repeats_effects_witness :
  let o := mkOrder "c3" (Some "d3") "completed" "transport" [] (Some 8)
             (Some 7.5) (mkPayment 3000 450 2550 "pending") None (Some 4%nat) in
  let db := mkDb {["o3" := o]} {["d3" := mkUser "driver" 1 7.5 0]} ∅ ∅ in
  let db_2 := Nat.iter 2
                (fun d => (put_order_status 5 "d3" "driver" "o3" "completed" d).1)
                db in
  totalTrips <$> users db_2 !! "d3" = Some (1 + INR 2).
Proof.
  cbn zeta.
  set (o := mkOrder _ _ _ _ _ _ _ _ _ _).
  destruct (repeated_completion_repeats_effects 5 "d3" "driver" "o3" "d3"
              (mkDb {["o3" := o]} {["d3" := mkUser "driver" 1 7.5 0]} ∅ ∅)
              o (mkUser "driver" 1 7.5 0) 2) as (Htrips & _).
  - apply lookup_singleton_eq.
  - reflexivity.
  - apply lookup_singleton_eq.
  - by left.
  - exact Htrips.
Defined.

(** ** Wallet recharge *)

Lemma confirm_recharge_ok now uid txid db tx :
  transactions db !! txid = Some tx →
  confirm_recharge now uid "admin" txid db
  = (mkDb (orders db)
       (credit_wallet (wt_userId tx) (wt_amount tx) (users db))
       (vehicles db)
       (<[txid := mkWalletTransaction (wt_userId tx) (wt_amount tx) "confirmed"
                    (Some now) (Some uid)]> (transactions db)), 200%nat).
Proof.
  intros Ht. unfold confirm_recharge.
  rewrite (bool_decide_eq_true_2 ("admin" = "admin")) by done.
  cbn [negb]. by rewrite Ht.
Qed.

(** [n] confirm requests in a row. *)
Lemma repeated_confirm_state now uid txid db tx u (n : nat) :
  transactions db !! txid = Some tx →
  users db !! wt_userId tx = Some u →
  let db_n := Nat.iter n
                (fun d => (confirm_recharge now uid "admin" txid d).1) db in
  ∃ tx_n u_n,
    transactions db_n !! txid = Some tx_n
    ∧ wt_userId tx_n = wt_userId tx
    ∧ wt_amount tx_n = wt_amount tx
    ∧ (n ≠ 0%nat → wt_status tx_n = "confirmed")
    ∧ users db_n !! wt_userId tx = Some u_n
    ∧ wallet_balance u_n = wallet_balance u + INR n * wt_amount tx.
Proof.
  intros Ht Hu. cbn zeta.
  induction n as [|n (tx_n & u_n & Htn & Hid & Ham & _ & Hun & Hbal)].
  - exists tx, u. simpl. repeat split; try done. lra.
  - rewrite Nat.iter_succ. rewrite (confirm_recharge_ok _ _ _ _ _ Htn).
    eexists. eexists. cbn [fst transactions users].
    split; [apply lookup_insert_eq|]. split; [exact Hid|].
    split; [exact Ham|]. split; [done|]. split.
    + unfold credit_wallet. rewrite Hid, lookup_alter_eq, Hun. reflexivity.
    + cbn [wallet_balance]. rewrite Hbal, Ham, S_INR. lra.
Qed.

(** C3, as stated, fails: the confirm operation is not idempotent.
    Confirming the same recharge of 1000 a second time is answered with
    200 and credits the wallet a second time. *)
Lemma second_confirm_credits_again :
  let tx := mkWalletTransaction "d1" 1000 "pending" None None in
  let db := mkDb ∅ {["d1" := mkUser "driver" 0 0 0]} ∅ {["t1" := tx]} in
  let r1 := confirm_recharge 5 "a1" "admin" "t1" db in
  let r2 := confirm_recharge 6 "a1" "admin" "t1" r1.1 in
  wt_status <$> transactions r1.1 !! "t1" = Some "confirmed"
  ∧ wallet_balance <$> users r1.1 !! "d1" = Some 1000
  ∧ r2.2 = 200%nat
  ∧ wallet_balance <$> users r2.1 !! "d1" = Some 2000.
Proof.
  cbn zeta.
  erewrite (confirm_recharge_ok 5); [|apply lookup_singleton_eq].
  cbn [fst].
  erewrite (confirm_recharge_ok 6); [|cbn [transactions]; apply lookup_insert_eq].
  cbn [fst snd transactions users wt_userId wt_amount]. unfold credit_wallet.
  rewrite lookup_insert_eq, !lookup_alter_eq, lookup_singleton_eq.
  cbn [fmap option_fmap option_map wallet_balance wt_status].
  split; [done|]. split; [f_equal; lra|]. split; [done|]. f_equal. lra.
Qed.

(** C3, amended: every confirm request of an admin for an existing
    transaction is answered with 200, sets the status to [confirmed] and
    adds the amount to the owner's wallet balance, whatever the status
    was before; after [n] confirm requests the balance has grown by [n]
    times the amount. *)
Theorem confirm_recharge_credits_on_every_call
    (now : time) (uid txid : string) (db : database)
    (tx : wallet_transaction) (u : user) (n : nat) :
  transactions db !! txid = Some tx →
  users db !! wt_userId tx = Some u →
  let db_n := Nat.iter n
                (fun d => (confirm_recharge now uid "admin" txid d).1) db in
  let r := confirm_recharge now uid "admin" txid db_n in
  wallet_balance <$> users db_n !! wt_userId tx
    = Some (wallet_balance u + INR n * wt_amount tx)
  ∧ r.2 = 200%nat
  ∧ wt_status <$> transactions r.1 !! txid = Some "confirmed"
  ∧ wallet_balance <$> users r.1 !! wt_userId tx
    = Some (wallet_balance u + INR n * wt_amount tx + wt_amount tx).
Proof.
  intros Ht Hu. cbn zeta.
  destruct (repeated_confirm_state now uid txid db tx u n Ht Hu)
    as (tx_n & u_n & Htn & Hid & Ham & _ & Hun & Hbal).
  cbn zeta in *.
  rewrite (confirm_recharge_ok _ _ _ _ _ Htn).
  cbn [fst snd transactions users]. unfold credit_wallet.
  rewrite Hun, lookup_insert_eq, Hid, lookup_alter_eq, Hun.
  cbn [fmap option_fmap option_map wallet_balance wt_status].
  rewrite Hbal, Ham. done.
Qed.

Lemma confirm_recharge_credits_on_every_call_witness :
  let tx := mkWalletTransaction "d4" 2500 "confirmed" (Some 3%nat) (Some "a1") in
  let db := mkDb ∅ {["d4" := mkUser "driver" 0 0 2500]} ∅ {["t4" := tx]} in
  let r := confirm_recharge 8 "a2" "admin" "t4" db in
  r.2 = 200%nat
  ∧ wallet_balance <$> users r.1 !! "d4" = Some (2500 + INR 0 * 2500 + 2500).
Proof.
  cbn zeta.
  destruct (confirm_recharge_credits_on_every_call 8 "a2" "t4"
              (mkDb ∅ {["d4" := mkUser "driver" 0 0 2500]} ∅
                 {["t4" := mkWalletTransaction "d4" 2500 "confirmed"
                             (Some 3%nat) (Some "a1")]})
              (mkWalletTransaction "d4" 2500 "confirmed" (Some 3%nat) (Some "a1"))
              (mkUser "driver" 0 0 2500) 0)
    as (_ & Hcode & _ & Hbal).
  - apply lookup_singleton_eq.
  - apply lookup_singleton_eq.
  - split; [exact Hcode | exact Hbal].
Defined.

(** * Further properties of the socket handlers *)

Local Close Scope R_scope.

Section JsMapMore.
Context {V : Type}.
Implicit Types (m : jsmap V) (k : string) (v : V).

Lemma jsmap_get_None_keys k m : jsmap_get k m = None ↔ k ∉ jsmap_keys m.
Proof.
  unfold jsmap_keys. induction m as [|[k' v'] m IH]; simpl.
  - split; [intros _; apply not_elem_of_nil | done].
  - rewrite not_elem_of_cons. destruct (decide (k = k')) as [->|Hne].
    + split; [done | by intros [? _]].
    + rewrite IH. tauto.
Qed.

Lemma jsmap_keys_set k v m :
  jsmap_keys (jsmap_set k v m)
  = if decide (k ∈ jsmap_keys m) then jsmap_keys m else jsmap_keys m ++ [k].
Proof.
  unfold jsmap_keys. induction m as [|[k' v'] m IH].
  - destruct (decide (k ∈ (@nil (string * V)).*1)) as [Hin|_]; [|done].
    by apply not_elem_of_nil in Hin.
  - cbn [jsmap_set]. destruct (decide (k = k')) as [->|Hne].
    + destruct (decide (k' ∈ ((k', v') :: m).*1)) as [_|Hnin]; [done|].
      destruct Hnin. apply list_elem_of_here.
    + change (((k', v') :: jsmap_set k v m).*1) with (k' :: (jsmap_set k v m).*1).
      rewrite IH.
      change (((k', v') :: m).*1) with (k' :: m.*1).
      destruct (decide (k ∈ m.*1)) as [Hin|Hnin];
        destruct (decide (k ∈ k' :: m.*1)) as [Hin'|Hnin']; try done.
      * destruct Hnin'. by apply list_elem_of_further.
      * apply elem_of_cons in Hin' as [?|?]; done.
Qed.

Lemma jsmap_set_keys_NoDup k v m :
  NoDup (jsmap_keys m) → NoDup (jsmap_keys (jsmap_set k v m)).
Proof.
  intros Hnd. rewrite jsmap_keys_set.
  destruct (decide (k ∈ jsmap_keys m)) as [Hin|Hnin]; [done|].
  apply NoDup_app. split; [done|]. split.
  - intros x Hx Hx'. apply list_elem_of_singleton in Hx'. by subst.
  - apply NoDup_singleton.
Qed.

(** Writing a key that is not there appends the entry. *)
Lemma jsmap_set_fresh k v m :
  jsmap_get k m = None → jsmap_set k v m = m ++ [(k, v)].
Proof.
  induction m as [|[k' v'] m IH]; simpl; [done|].
  destruct (decide (k = k')); [done|]. intros Hn. by rewrite IH.
Qed.

(** A second write under the same key overwrites the first. *)
Lemma jsmap_set_set k v v' m :
  jsmap_set k v' (jsmap_set k v m) = jsmap_set k v' m.
Proof.
  induction m as [|[k0 v0] m IH]; simpl.
  - by rewrite decide_True.
  - destruct (decide (k = k0)) as [->|Hne]; simpl.
    + by rewrite decide_True.
    + rewrite decide_False by done. by rewrite IH.
Qed.

End JsMapMore.

Lemma run_app (evs evs' : list socket_event) : ∀ st,
  run (evs ++ evs') st = run evs' (run evs st).
Proof. induction evs as [|ev evs IH]; intros st; simpl; [done | apply IH]. Qed.

Lemma handle_keys_NoDup ev st :
  NoDup (jsmap_keys (driverPositions st)) →
  NoDup (jsmap_keys (activeOrders st)) →
  NoDup (jsmap_keys (driverPositions (handle ev st).1))
  ∧ NoDup (jsmap_keys (activeOrders (handle ev st).1)).
Proof.
  intros Hp Ho.
  destruct ev as [sock now data|sock data|sock data|sock now data|sock]; simpl.
  - split; [by apply jsmap_set_keys_NoDup | done].
  - unfold on_order_track.
    destruct (jsmap_get (td_orderId data) (activeOrders st)); simpl;
      [|done]. split; [done | by apply jsmap_set_keys_NoDup].
  - split; [done | by apply jsmap_set_keys_NoDup].
  - unfold on_chat_message.
    destruct (jsmap_get (cd_orderId data) (activeOrders st)) as [s|]; [|done].
    destruct (decide (cd_senderType data = "client")); simpl.
    + by destruct (decide (driverSocketId s = EmptyString)).
    + destruct (clientSocketId s) as [t|]; [|done].
      by destruct (decide (t = EmptyString)).
  - split; [|done]. by rewrite jsmap_keys_map.
Qed.

(** X1: both maps hold at most one entry per key.  If no driver id and no
    order id occurs twice, the same is true after any sequence of socket
    events. *)
Theorem registry_and_sessions_keep_unique_keys
    (evs : list socket_event) (st : rt_state) :
  NoDup (jsmap_keys (driverPositions st)) →
  NoDup (jsmap_keys (activeOrders st)) →
  NoDup (jsmap_keys (driverPositions (run evs st)))
  ∧ NoDup (jsmap_keys (activeOrders (run evs st))).
Proof.
  revert st. induction evs as [|ev evs IH]; intros st Hp Ho; simpl; [done|].
  destruct (handle_keys_NoDup ev st Hp Ho) as [Hp' Ho']. by apply IH.
Qed.

Lemma registry_and_sessions_keep_unique_keys_witness :
  let evs := [EvAccept "sD" (mkAcceptData "o1" "d1");
              EvLocation "sD" 1 (mkLocationData "d1" (JNum 6) (JNum 2)
                                   JUndefined JUndefined JUndefined JUndefined);
              EvAccept "sD" (mkAcceptData "o1" "d1");
              EvLocation "sD" 2 (mkLocationData "d1" (JNum 7) (JNum 2)
                                   JUndefined JUndefined JUndefined JUndefined)] in
  NoDup (jsmap_keys (driverPositions (run evs rt_init)))
  ∧ NoDup (jsmap_keys (activeOrders (run evs rt_init))).
Proof.
  cbn zeta.
  apply registry_and_sessions_keep_unique_keys; simpl; apply NoDup_nil_2.
Defined.

Lemma handle_keeps_untouched_position ev st d sock p :
  touches_position d sock ev = false →
  socketId p = sock →
  jsmap_get d (driverPositions st) = Some p →
  jsmap_get d (driverPositions (handle ev st).1) = Some p.
Proof.
  intros Hq Hs Hp.
  destruct ev as [s now data|s data|s data|s now data|s]; simpl in Hq.
  - cbn [handle]. rewrite report_lookup.
    apply bool_decide_eq_false_1 in Hq. rewrite decide_False; [done|].
    by intros ->.
  - simpl. unfold on_order_track.
    by destruct (jsmap_get (td_orderId data) (activeOrders st)).
  - done.
  - simpl. unfold on_chat_message.
    destruct (jsmap_get (cd_orderId data) (activeOrders st)) as [x|]; [|done].
    destruct (decide (cd_senderType data = "client")); simpl.
    + by destruct (decide (driverSocketId x = EmptyString)).
    + destruct (clientSocketId x) as [t|]; [|done].
      by destruct (decide (t = EmptyString)).
  - cbn [handle]. rewrite disconnect_lookup, Hp. simpl. f_equal.
    unfold mark_offline. apply bool_decide_eq_false_1 in Hq.
    rewrite decide_False; [done|]. rewrite Hs. by intros ->.
Qed.

(** X2: last write wins.  After a location report, and as long as no later
    event is a report for the same driver or the disconnect of the
    reporting socket, the registry holds exactly the position built from
    that report, whatever happened before it. *)
Theorem last_report_wins
    (evs evs' : list socket_event) (sock : string) (now : time)
    (data : location_data) (st : rt_state) :
  Forall (fun ev => touches_position (ld_driverId data) sock ev = false) evs' →
  jsmap_get (ld_driverId data)
    (driverPositions (run (evs ++ EvLocation sock now data :: evs') st))
  = Some (make_position sock now data).
Proof.
  intros Hq. rewrite run_app. cbn [run handle].
  assert (Hstart : jsmap_get (ld_driverId data)
            (driverPositions (on_driver_location sock now data (run evs st)).1)
          = Some (make_position sock now data)).
  { rewrite report_lookup. by rewrite decide_True. }
  revert Hstart. generalize (on_driver_location sock now data (run evs st)).1.
  induction Hq as [|ev evs' Hev _ IH]; intros st0 Hstart; cbn [run]; [done|].
  apply IH. by apply (handle_keeps_untouched_position ev st0 _ sock).
Qed.

Lemma last_report_wins_witness :
  let d1 := mkLocationData "d1" (JNum 6) (JNum 2) JUndefined JUndefined
              JUndefined JUndefined in
  let d2 := mkLocationData "d1" (JNum 7) (JNum 3) (JNum 40) JUndefined
              (JNum 0) JUndefined in
  let other := mkLocationData "d2" (JNum 1) (JNum 1) JUndefined JUndefined
                 JUndefined JUndefined in
  jsmap_get "d1"
    (driverPositions
       (run ([EvLocation "s1" 1 d1] ++ EvLocation "s1" 2 d2
             :: [EvLocation "s2" 3 other; EvDisconnect "s2"]) rt_init))
  = Some (make_position "s1" 2 d2).
Proof.
  cbn zeta.
  apply (last_report_wins [EvLocation "s1" 1 _] [_; _] "s1" 2
           (mkLocationData "d1" (JNum 7) (JNum 3) (JNum 40) JUndefined
              (JNum 0) JUndefined) rt_init).
  repeat constructor.
Defined.

Lemma handle_keeps_sessions ev st o :
  is_Some (jsmap_get o (activeOrders st)) →
  is_Some (jsmap_get o (activeOrders (handle ev st).1)).
Proof.
  intros Hs. destruct ev as [sock now data|sock data|sock data|sock now data|sock].
  - done.
  - cbn [handle]. rewrite track_lookup. by apply fmap_is_Some.
  - simpl. by apply jsmap_set_is_Some.
  - simpl. unfold on_chat_message.
    destruct (jsmap_get (cd_orderId data) (activeOrders st)) as [s|]; [|done].
    destruct (decide (cd_senderType data = "client")); simpl.
    + by destruct (decide (driverSocketId s = EmptyString)).
    + destruct (clientSocketId s) as [t|]; [|done].
      by destruct (decide (t = EmptyString)).
  - done.
Qed.

(** X3: sessions never expire.  No socket event, a disconnect of either
    party included, removes an entry of the session table: an order id
    that has a session keeps one through every sequence of events. *)
Theorem sessions_are_never_removed
    (evs : list socket_event) (st : rt_state) (o : string) :
  is_Some (jsmap_get o (activeOrders st)) →
  is_Some (jsmap_get o (activeOrders (run evs st))).
Proof.
  revert st. induction evs as [|ev evs IH]; intros st Hs; simpl; [done|].
  apply IH. by apply handle_keeps_sessions.
Qed.

Lemma sessions_are_never_removed_witness :
  let st := (on_driver_accept_order "sD" (mkAcceptData "o1" "d1") rt_init).1 in
  is_Some (jsmap_get "o1"
             (activeOrders (run [EvDisconnect "sD"; EvDisconnect "sC"] st))).
Proof.
  cbn zeta. apply sessions_are_never_removed. simpl. eauto.
Defined.

Lemma handle_session_shape ev st :
  (∀ o s, jsmap_get o (activeOrders st) = Some s →
          status s = "accepted" ∧ orderId s = o) →
  ∀ o s, jsmap_get o (activeOrders (handle ev st).1) = Some s →
         status s = "accepted" ∧ orderId s = o.
Proof.
  intros Hinv o s.
  destruct ev as [sock now data|sock data|sock data|sock now data|sock].
  - apply Hinv.
  - cbn [handle]. rewrite track_lookup.
    destruct (jsmap_get o (activeOrders st)) as [s0|] eqn:Hs0; simpl; [|done].
    destruct (Hinv o s0 Hs0) as [Hst Hid].
    destruct (decide (o = td_orderId data)); intros [= <-]; by simpl.
  - simpl. rewrite jsmap_get_set.
    destruct (decide (o = ad_orderId data)) as [->|_]; [|apply Hinv].
    by intros [= <-].
  - simpl. unfold on_chat_message.
    destruct (jsmap_get (cd_orderId data) (activeOrders st)) as [x|];
      [|apply Hinv].
    destruct (decide (cd_senderType data = "client")); simpl.
    + destruct (decide (driverSocketId x = EmptyString)); apply Hinv.
    + destruct (clientSocketId x) as [t|]; [|apply Hinv].
      destruct (decide (t = EmptyString)); apply Hinv.
  - apply Hinv.
Qed.

(** X4: the status mirror of a session is never updated.  If every session
    has status [accepted] and carries its own key as order id, this stays
    so through every sequence of socket events; no handler ever writes
    another status into the session table. *)
Theorem session_status_is_always_accepted
    (evs : list socket_event) (st : rt_state) (o : string) (s : session) :
  (∀ o s, jsmap_get o (activeOrders st) = Some s →
          status s = "accepted" ∧ orderId s = o) →
  jsmap_get o (activeOrders (run evs st)) = Some s →
  status s = "accepted" ∧ orderId s = o.
Proof.
  revert st. induction evs as [|ev evs IH]; intros st Hinv; simpl.
  - apply Hinv.
  - apply IH. by apply handle_session_shape.
Qed.

Lemma session_status_is_always_accepted_witness :
  let evs := [EvAccept "sD" (mkAcceptData "o1" "d1");
              EvTrack "sC" (mkTrackData "o1" "c1");
              EvDisconnect "sD"] in
  let s := mkSession "o1" "d1" "sD" (Some "sC") "accepted" in
  jsmap_get "o1" (activeOrders (run evs rt_init)) = Some s
  ∧ status s = "accepted" ∧ orderId s = "o1".
Proof.
  cbn zeta. split; [reflexivity|].
  apply (session_status_is_always_accepted
           [EvAccept "sD" (mkAcceptData "o1" "d1");
            EvTrack "sC" (mkTrackData "o1" "c1");
            EvDisconnect "sD"] rt_init "o1").
  - intros o s Hs. simpl in Hs. discriminate Hs.
  - reflexivity.
Defined.

Lemma find_active_order_set_only d o s (m : jsmap session) :
  find_active_order d m = None →
  driverId s = d →
  find_active_order d (jsmap_set o s m) = Some s.
Proof.
  unfold find_active_order, jsmap_values. intros Hnone Hd.
  induction m as [|[k v] m IH]; simpl in *.
  - by rewrite bool_decide_eq_true_2.
  - destruct (bool_decide (driverId v = d)) eqn:Hv; [done|].
    destruct (decide (o = k)); simpl.
    + by rewrite bool_decide_eq_true_2.
    + rewrite Hv. by apply IH.
Qed.

Lemma find_active_order_app_l d s0 (m m' : jsmap session) :
  find_active_order d m = Some s0 →
  find_active_order d (m ++ m') = Some s0.
Proof.
  unfold find_active_order, jsmap_values.
  induction m as [|[k v] m IH]; simpl; [done|].
  by destruct (bool_decide (driverId v = d)).
Qed.

Lemma accept_then_track sockD sockC o d c st :
  activeOrders (run [EvAccept sockD (mkAcceptData o d);
                     EvTrack sockC (mkTrackData o c)] st)
  = jsmap_set o (mkSession o d sockD (Some sockC) "accepted") (activeOrders st).
Proof.
  cbn [run handle]. unfold on_order_track, on_driver_accept_order.
  cbn [fst activeOrders td_orderId ad_orderId ad_driverId].
  rewrite jsmap_get_set_eq. cbn [fst activeOrders].
  by rewrite jsmap_set_set.
Qed.

(** X5: accept, then track, then report.  When the driver has no session
    yet, after the driver accepts an order and the client tracks it, a
    location report of that driver is broadcast to the other connections
    and also sent to that client's socket, with the raw speed and heading of
    the report. *)
Theorem tracked_order_receives_driver_location
    (sockD sockC sock o c : string) (now : time) (data : location_data)
    (st : rt_state) :
  find_active_order (ld_driverId data) (activeOrders st) = None →
  let st' := run [EvAccept sockD (mkAcceptData o (ld_driverId data));
                  EvTrack sockC (mkTrackData o c)] st in
  (on_driver_location sock now data st').2
  = [BroadcastExcept sock "drivers:update"
       (DriversUpdate (ld_driverId data) (make_position sock now data));
     EmitTo (Some sockC) "order:driver_location"
       (OrderDriverLocation o (ld_lat data) (ld_lon data) (ld_speed data)
          (ld_heading data))].
Proof.
  intros Hnone. cbn zeta. unfold on_driver_location. cbn [snd].
  rewrite accept_then_track.
  by rewrite (find_active_order_set_only (ld_driverId data) o
                (mkSession o (ld_driverId data) sockD (Some sockC) "accepted")
                (activeOrders st) Hnone eq_refl).
Qed.

Lemma tracked_order_receives_driver_location_witness :
  let data := mkLocationData "d1" (JNum 6) (JNum 2) JUndefined (JNum 90)
                JUndefined JUndefined in
  let st' := run [EvAccept "sD" (mkAcceptData "o1" "d1");
                  EvTrack "sC" (mkTrackData "o1" "c1")] rt_init in
  (on_driver_location "sD" 4 data st').2
  = [BroadcastExcept "sD" "drivers:update"
       (DriversUpdate "d1" (make_position "sD" 4 data));
     EmitTo (Some "sC") "order:driver_location"
       (OrderDriverLocation "o1" (JNum 6) (JNum 2) JUndefined (JNum 90))].
Proof.
  cbn zeta.
  apply (tracked_order_receives_driver_location "sD" "sC" "sD" "o1" "c1" 4
           (mkLocationData "d1" (JNum 6) (JNum 2) JUndefined (JNum 90)
              JUndefined JUndefined) rt_init).
  reflexivity.
Defined.

(** X6: the oldest session of a driver takes the location updates.  When
    the driver already has a session, a newly accepted and tracked order
    of the same driver gets no location event: the report is still sent to
    the client handle of the older session, under the older order id. *)
Theorem older_session_keeps_driver_location
    (sockD sockC sock o c : string) (now : time) (data : location_data)
    (st : rt_state) (s0 : session) :
  find_active_order (ld_driverId data) (activeOrders st) = Some s0 →
  jsmap_get o (activeOrders st) = None →
  let st' := run [EvAccept sockD (mkAcceptData o (ld_driverId data));
                  EvTrack sockC (mkTrackData o c)] st in
  (on_driver_location sock now data st').2
  = [BroadcastExcept sock "drivers:update"
       (DriversUpdate (ld_driverId data) (make_position sock now data));
     EmitTo (clientSocketId s0) "order:driver_location"
       (OrderDriverLocation (orderId s0) (ld_lat data) (ld_lon data)
          (ld_speed data) (ld_heading data))].
Proof.
  intros Hold Hfresh. cbn zeta. unfold on_driver_location. cbn [snd].
  rewrite accept_then_track, (jsmap_set_fresh _ _ _ Hfresh).
  by rewrite (find_active_order_app_l _ _ _ _ Hold).
Qed.

Lemma older_session_keeps_driver_location_witness :
  let data := mkLocationData "d1" (JNum 6) (JNum 2) JUndefined JUndefined
                JUndefined JUndefined in
  let st := run [EvAccept "sD" (mkAcceptData "o1" "d1");
                 EvTrack "sA" (mkTrackData "o1" "c1")] rt_init in
  let st' := run [EvAccept "sD" (mkAcceptData "o2" "d1");
                  EvTrack "sB" (mkTrackData "o2" "c2")] st in
  (on_driver_location "sD" 4 data st').2
  = [BroadcastExcept "sD" "drivers:update"
       (DriversUpdate "d1" (make_position "sD" 4 data));
     EmitTo (Some "sA") "order:driver_location"
       (OrderDriverLocation "o1" (JNum 6) (JNum 2) JUndefined JUndefined)].
Proof.
  cbn zeta.
  apply (older_session_keeps_driver_location "sD" "sB" "sD" "o2" "c2" 4
           (mkLocationData "d1" (JNum 6) (JNum 2) JUndefined JUndefined
              JUndefined JUndefined)
           (run [EvAccept "sD" (mkAcceptData "o1" "d1");
                 EvTrack "sA" (mkTrackData "o1" "c1")] rt_init)
           (mkSession "o1" "d1" "sD" (Some "sA") "accepted")).
  - reflexivity.
  - reflexivity.
Defined.

(** X7: chat delivery is targeted and never touches the two maps.  The
    handler sends at most one event; what it sends goes to a non-empty
    handle of the session of the message's order, the driver handle when
    the sender type is [client] and the client handle for every other
    sender type; without a session, or when a non-client sender writes
    before the client has attached, nothing is sent. *)
Theorem chat_goes_to_the_counterpart_only
    (now : time) (data : chat_data) (st : rt_state) :
  let out := (on_chat_message now data st).2 in
  (on_chat_message now data st).1 = st
  ∧ length out ≤ 1
  ∧ (∀ e, e ∈ out →
       ∃ s t, jsmap_get (cd_orderId data) (activeOrders st) = Some s
              ∧ e = chat_event now data t
              ∧ t ≠ EmptyString
              ∧ if decide (cd_senderType data = "client")
                then t = driverSocketId s
                else clientSocketId s = Some t)
  ∧ (jsmap_get (cd_orderId data) (activeOrders st) = None → out = [])
  ∧ (∀ s, jsmap_get (cd_orderId data) (activeOrders st) = Some s →
          cd_senderType data ≠ "client" → clientSocketId s = None → out = []).
Proof.
  cbn zeta. unfold on_chat_message.
  assert (Hnil : ∀ (P : emit → Prop) e, e ∈ @nil emit → P e)
    by (intros P e He; by apply elem_of_nil in He).
  destruct (jsmap_get (cd_orderId data) (activeOrders st)) as [s|] eqn:Hs.
  2:{ split_and!; try done; try (simpl; lia). apply Hnil. }
  destruct (decide (cd_senderType data = "client")) as [Hc|Hc].
  - destruct (decide (driverSocketId s = EmptyString)) as [He|He]; cbn [fst snd].
    + split_and!; try done; try (simpl; lia). apply Hnil.
    + split_and!; try done; try (simpl; lia).
      intros e H. apply list_elem_of_singleton in H as ->.
      exists s, (driverSocketId s). by split_and!.
  - destruct (clientSocketId s) as [t|] eqn:Ht.
    + destruct (decide (t = EmptyString)) as [He|He]; cbn [fst snd].
      * split_and!; try done; try (simpl; lia); try apply Hnil.
      * split_and!; try done; try (simpl; lia).
        -- intros e H. apply list_elem_of_singleton in H as ->.
           exists s, t. by split_and!.
        -- intros s' [= <-] _ Hn. congruence.
    + cbn [fst snd]. split_and!; try done; try (simpl; lia). apply Hnil.
Qed.

Lemma chat_goes_to_the_counterpart_only_witness :
  let st := run [EvAccept "sD" (mkAcceptData "o1" "d1")] rt_init in
  let data := mkChatData "o1" "d1" "driver" (JStr "on my way") JUndefined in
  (on_chat_message 3 data st).2 = [].
Proof.
  cbn zeta.
  destruct (chat_goes_to_the_counterpart_only 3
              (mkChatData "o1" "d1" "driver" (JStr "on my way") JUndefined)
              (run [EvAccept "sD" (mkAcceptData "o1" "d1")] rt_init))
    as (_ & _ & _ & _ & Hdrop).
  apply (Hdrop (mkSession "o1" "d1" "sD" None "accepted")).
  - reflexivity.
  - discriminate.
  - reflexivity.
Defined.

(** A delivered message: the driver writes after the client attached. *)
Example chat_is_delivered_to_the_tracking_client :
  let st := run [EvAccept "sD" (mkAcceptData "o1" "d1");
                 EvTrack "sC" (mkTrackData "o1" "c1")] rt_init in
  let data := mkChatData "o1" "d1" "driver" (JStr "on my way") JUndefined in
  (on_chat_message 3 data st).2 = [chat_event 3 data "sC"].
Proof. reflexivity. Qed.

Lemma online_count_mark_offline H (ps : list position) :
  length (List.filter isOnline (map (mark_offline H) ps))
  + length (List.filter
              (fun p => isOnline p && bool_decide (socketId p = H)) ps)
  = length (List.filter isOnline ps).
Proof.
  induction ps as [|p ps IH]; [done|]. cbn [map List.filter].
  unfold mark_offline at 1.
  destruct (decide (socketId p = H)) as [Hp|Hp].
  - rewrite (bool_decide_eq_true_2 _ Hp). cbn [isOnline].
    destruct (isOnline p); simpl; lia.
  - rewrite (bool_decide_eq_false_2 _ Hp).
    destruct (isOnline p); simpl; lia.
Qed.

(** X8: the online-driver count of the admin statistics.  A disconnect of
    handle [H] lowers [onlineDrivers] by exactly the number of entries that
    were online on [H], and afterwards no entry bound to [H] is online. *)
Theorem disconnect_lowers_online_count (H : string) (st : rt_state) :
  onlineDrivers (on_disconnect H st).1
  + length (List.filter
              (fun p => isOnline p && bool_decide (socketId p = H))
              (jsmap_values (driverPositions st)))
  = onlineDrivers st
  ∧ Forall (fun p => socketId p = H → isOnline p = false)
      (jsmap_values (driverPositions (on_disconnect H st).1)).
Proof.
  unfold onlineDrivers, jsmap_values. cbn [on_disconnect fst driverPositions].
  assert (Hv : (map (fun e : string * position => (e.1, mark_offline H e.2))
                  (driverPositions st)).*2
               = map (mark_offline H) (driverPositions st).*2).
  { induction (driverPositions st) as [|[k p] m IH]; [done|].
    simpl. f_equal. exact IH. }
  rewrite Hv. split; [apply online_count_mark_offline|].
  apply Forall_forall. intros p Hp.
  apply list_elem_of_fmap in Hp as (p0 & -> & _).
  unfold mark_offline. destruct (decide (socketId p0 = H)); [done|].
  intros Heq. done.
Qed.

Lemma disconnect_lowers_online_count_example :
  let p1 := mkPosition (JNum 6) (JNum 2) (JNum 0) (JNum 0) (JNum 100) true 1 "s1" in
  let p2 := mkPosition (JNum 7) (JNum 3) (JNum 0) (JNum 0) (JNum 100) true 2 "s2" in
  let st := mkRt [("d1", p1); ("d2", p2)] [] in
  onlineDrivers st = 2 ∧ onlineDrivers (on_disconnect "s1" st).1 = 1.
Proof. split; reflexivity. Qed.

(** * Further properties of distances and prices *)

Local Open Scope R_scope.

Lemma calculateDistance_unfold (lat1 lon1 lat2 lon2 : R) :
  calculateDistance lat1 lon1 lat2 lon2
  = 6371 * (2 * atan2 (sqrt (haversine_a lat1 lon1 lat2 lon2))
                      (sqrt (1 - haversine_a lat1 lon1 lat2 lon2))).
Proof. reflexivity. Qed.

Lemma sin_cos_square (x : R) : sin x * sin x + cos x * cos x = 1.
Proof. pose proof (sin2_cos2 x) as H. unfold Rsqr in H. exact H. Qed.

Lemma sin_half_square (x : R) : 2 * (sin (x / 2) * sin (x / 2)) = 1 - cos x.
Proof.
  pose proof (cos_2a_sin (x / 2)) as H.
  replace (2 * (x / 2)) with x in H by lra. lra.
Qed.

Lemma haversine_a_range (lat1 lon1 lat2 lon2 : R) :
  0 <= haversine_a lat1 lon1 lat2 lon2 <= 1.
Proof.
  unfold haversine_a.
  set (p1 := lat1 * PI / 180). set (p2 := lat2 * PI / 180).
  set (y := (lon2 - lon1) * PI / 180 / 2).
  replace ((lat2 - lat1) * PI / 180 / 2) with ((p2 - p1) / 2)
    by (unfold p1, p2; lra).
  pose proof (sin_half_square (p2 - p1)) as Hh.
  rewrite cos_minus in Hh.
  pose proof (sin_cos_square p1) as H1.
  pose proof (sin_cos_square p2) as H2.
  pose proof (sin_cos_square y) as Hy.
  assert (HT : 0 <= sin y * sin y <= 1).
  { pose proof (Rle_0_sqr (sin y)) as Hs. pose proof (Rle_0_sqr (cos y)) as Hc.
    unfold Rsqr in Hs, Hc. lra. }
  set (T := sin y * sin y) in *.
  replace (cos p1 * cos p2 * sin y * sin y) with (cos p1 * cos p2 * T)
    by (unfold T; ring).
  set (c1 := cos p1) in *. set (c2 := cos p2) in *.
  set (s1 := sin p1) in *. set (s2 := sin p2) in *.
  set (h := sin ((p2 - p1) / 2) * sin ((p2 - p1) / 2)) in *.
  assert (Ha : 0 <= 1 + c1 * c2 - s1 * s2).
  { pose proof (Rle_0_sqr (c1 + c2)) as Hp. pose proof (Rle_0_sqr (s1 - s2)) as Hq.
    unfold Rsqr in Hp, Hq. nra. }
  assert (Hb : 0 <= 1 - c1 * c2 - s1 * s2).
  { pose proof (Rle_0_sqr (c1 - c2)) as Hp. pose proof (Rle_0_sqr (s1 - s2)) as Hq.
    unfold Rsqr in Hp, Hq. nra. }
  assert (Hc : 0 <= 1 - c1 * c2 + s1 * s2).
  { pose proof (Rle_0_sqr (c1 - c2)) as Hp. pose proof (Rle_0_sqr (s1 + s2)) as Hq.
    unfold Rsqr in Hp, Hq. nra. }
  assert (Hd : 0 <= 1 + c1 * c2 + s1 * s2).
  { pose proof (Rle_0_sqr (c1 + c2)) as Hp. pose proof (Rle_0_sqr (s1 + s2)) as Hq.
    unfold Rsqr in Hp, Hq. nra. }
  assert (Hh' : 2 * h = 1 - c1 * c2 - s1 * s2) by lra.
  destruct HT as [HT0 HT1].
  pose proof (Rmult_le_pos _ _ HT0 Ha) as M1.
  assert (HT1' : 0 <= 1 - T) by lra.
  pose proof (Rmult_le_pos _ _ HT1' Hb) as M2.
  pose proof (Rmult_le_pos _ _ HT0 Hc) as M3.
  pose proof (Rmult_le_pos _ _ HT1' Hd) as M4.
  split; nra.
Qed.

Lemma atan2_quadrant (y x : R) :
  0 <= y → 0 <= x → 0 <= atan2 y x <= PI / 2.
Proof.
  intros Hy Hx. pose proof PI_RGT_0 as Hpi. unfold atan2.
  destruct (Rlt_dec 0 x) as [Hpos|Hnpos].
  - assert (Hq : 0 <= y / x).
    { apply Rmult_le_pos; [done|]. left. by apply Rinv_0_lt_compat. }
    pose proof (atan_bound (y / x)) as [_ Hu].
    split; [|lra].
    destruct Hq as [Hq|<-]; [|rewrite atan_0; lra].
    pose proof (atan_increasing 0 (y / x) Hq) as Hi. rewrite atan_0 in Hi. lra.
  - destruct (Rlt_dec x 0) as [Hneg|_]; [lra|].
    destruct (Rlt_dec 0 y) as [_|_]; [lra|].
    destruct (Rlt_dec y 0) as [Hyn|_]; lra.
Qed.

Lemma calculateDistance_range (lat1 lon1 lat2 lon2 : R) :
  0 <= calculateDistance lat1 lon1 lat2 lon2 <= 6371 * PI.
Proof.
  rewrite calculateDistance_unfold.
  pose proof (atan2_quadrant (sqrt (haversine_a lat1 lon1 lat2 lon2))
                (sqrt (1 - haversine_a lat1 lon1 lat2 lon2))
                (sqrt_pos _) (sqrt_pos _)) as [Hl Hu].
  split; lra.
Qed.

(** X9: the haversine distance is a distance on a sphere of radius 6371.
    For all coordinates the quantity under the square roots lies between
    0 and 1, and the result lies between 0 and half the circumference,
    6371 × π. *)
Theorem calculateDistance_bounds (lat1 lon1 lat2 lon2 : R) :
  0 <= haversine_a lat1 lon1 lat2 lon2 <= 1
  ∧ 0 <= calculateDistance lat1 lon1 lat2 lon2 <= 6371 * PI.
Proof.
  split; [apply haversine_a_range | apply calculateDistance_range].
Qed.

Lemma haversine_a_sym (lat1 lon1 lat2 lon2 : R) :
  haversine_a lat1 lon1 lat2 lon2 = haversine_a lat2 lon2 lat1 lon1.
Proof.
  unfold haversine_a.
  replace ((lat1 - lat2) * PI / 180 / 2) with (- ((lat2 - lat1) * PI / 180 / 2))
    by lra.
  replace ((lon1 - lon2) * PI / 180 / 2) with (- ((lon2 - lon1) * PI / 180 / 2))
    by lra.
  rewrite !sin_neg. ring.
Qed.

(** X10: the distance does not depend on the direction of travel, and a
    point is at distance 0 from itself. *)
Theorem calculateDistance_symmetric (lat1 lon1 lat2 lon2 : R) :
  calculateDistance lat1 lon1 lat2 lon2 = calculateDistance lat2 lon2 lat1 lon1
  ∧ calculateDistance lat1 lon1 lat1 lon1 = 0.
Proof.
  split; [|apply calculateDistance_same].
  rewrite !calculateDistance_unfold. by rewrite haversine_a_sym.
Qed.

Lemma js_round_bounds (x : R) : x - 1 / 2 < js_round x <= x + 1 / 2.
Proof.
  unfold js_round. pose proof (Zfloor_bound (x + 1 / 2)) as [Hl Hu]. lra.
Qed.

Lemma js_round_nonneg (x : R) : 0 <= x → 0 <= js_round x.
Proof.
  intros Hx. unfold js_round. apply (IZR_le 0). apply Zfloor_lub. simpl. lra.
Qed.

Lemma js_round_le (x y : R) : x <= y → js_round x <= js_round y.
Proof.
  intros Hxy. unfold js_round. apply IZR_le, Zfloor_le. lra.
Qed.

Lemma haversine_nonneg (p q : geo) : 0 <= haversine p q.
Proof. unfold haversine. apply calculateDistance_range. Qed.

Lemma path_length_nonneg (l : list geo) : 0 <= path_length l.
Proof.
  induction l as [|a [|b l] IH].
  - unfold path_length. simpl. lra.
  - unfold path_length. simpl. lra.
  - rewrite path_length_cons2. pose proof (haversine_nonneg a b). lra.
Qed.

(** X11: accuracy of [actual_km].  For an order with at least two tracked
    points the value stored on completion is a non-negative whole number
    of tenths of a kilometre and differs from the exact length of the
    tracked path by at most 0.05 km. *)
Theorem actual_km_is_path_length_to_one_decimal (o : order) :
  (2 ≤ length (order_tracking o))%nat →
  ∃ z : Z,
    completed_actual_km o = Some (IZR z / 10)
    ∧ (0 <= z)%Z
    ∧ path_length (order_tracking o) - 0.05 < IZR z / 10
      <= path_length (order_tracking o) + 0.05.
Proof.
  intros Hlen. rewrite (completed_actual_km_tracked _ Hlen). unfold round1.
  exists (Zfloor (path_length (order_tracking o) * 10 + 1 / 2)).
  pose proof (path_length_nonneg (order_tracking o)) as Hpos.
  pose proof (js_round_bounds (path_length (order_tracking o) * 10)) as [Hl Hu].
  unfold js_round in *. split; [done|]. split.
  - apply Zfloor_lub. simpl. lra.
  - lra.
Qed.

Lemma actual_km_is_path_length_to_one_decimal_witness :
  let o := mkOrder "c1" (Some "d1") "unloading" "transport"
             [mkGeo 6.37 2.39; mkGeo 6.4 2.42; mkGeo 6.45 2.5] (Some 12) None
             (mkPayment 3000 450 2550 "pending") None None in
  ∃ z : Z, completed_actual_km o = Some (IZR z / 10) ∧ (0 <= z)%Z.
Proof.
  cbn zeta.
  destruct (actual_km_is_path_length_to_one_decimal
              (mkOrder "c1" (Some "d1") "unloading" "transport"
                 [mkGeo 6.37 2.39; mkGeo 6.4 2.42; mkGeo 6.45 2.5] (Some 12) None
                 (mkPayment 3000 450 2550 "pending") None None))
    as (z & Hz & Hpos & _).
  - simpl. lia.
  - exists z. split; [exact Hz | exact Hpos].
Defined.

Lemma num_or_floor (x : option R) (d : R) :
  match x with Some m => 0 <= m | None => True end →
  0 < d → 0 < num_or x d.
Proof.
  intros Hx Hd. destruct x as [m|]; simpl; [|done].
  unfold num_truthy. destruct (Req_dec_T m 0) as [->|Hne]; [done|]. lra.
Qed.

Lemma compute_payment_amount_ge (p : pricing) (serviceType : string)
    (pickup : geo) (dropoff : option geo) :
  num_or (minimumPrice p) 5000
  <= amount (compute_payment p serviceType pickup dropoff).
Proof.
  unfold compute_payment. cbn [amount].
  destruct dropoff as [d|]; [|lra].
  destruct (bool_decide (serviceType = "transport")
            && num_truthy (geo_lat pickup) && num_truthy (geo_lat d)); [|lra].
  apply Rmax_l.
Qed.

(** X12: bounds on the price of an order.  Whenever the vehicle's minimum
    price is missing or non-negative, for every service type and all
    endpoints, the amount is positive and at least the minimum price (5000
    when that is missing or zero), the platform fee is a non-negative
    whole number within one half of 15% of the amount, and the driver
    share lies between 0 and the amount. *)
Theorem order_price_bounds (p : pricing) (serviceType : string)
    (pickup : geo) (dropoff : option geo) :
  match minimumPrice p with Some m => 0 <= m | None => True end →
  let pay := compute_payment p serviceType pickup dropoff in
  0 < amount pay
  ∧ num_or (minimumPrice p) 5000 <= amount pay
  ∧ (∃ z : Z, platformFee pay = IZR z ∧ (0 <= z)%Z)
  ∧ amount pay * 0.15 - 1 / 2 < platformFee pay <= amount pay * 0.15 + 1 / 2
  ∧ 0 <= driverShare pay <= amount pay.
Proof.
  intros Hmin. cbn zeta.
  pose proof (compute_payment_amount_ge p serviceType pickup dropoff) as Hge.
  pose proof (num_or_floor (minimumPrice p) 5000 Hmin ltac:(lra)) as Hfloor.
  assert (Hfee : platformFee (compute_payment p serviceType pickup dropoff)
                 = js_round (amount (compute_payment p serviceType pickup dropoff)
                             * 0.15)).
  { unfold compute_payment. cbn [platformFee amount].
    first [reflexivity | f_equal; lra]. }
  assert (Hshare : driverShare (compute_payment p serviceType pickup dropoff)
                   = amount (compute_payment p serviceType pickup dropoff)
                     - platformFee (compute_payment p serviceType pickup dropoff))
    by reflexivity.
  set (a := amount (compute_payment p serviceType pickup dropoff)) in *.
  set (f := platformFee (compute_payment p serviceType pickup dropoff)) in *.
  assert (Ha : 0 < a) by lra.
  pose proof (js_round_bounds (a * 0.15)) as [Hl Hu].
  assert (Hf0 : 0 <= f) by (rewrite Hfee; apply js_round_nonneg; lra).
  split; [done|]. split; [done|]. split.
  { exists (Zfloor (a * 0.15 + 1 / 2)). split; [by rewrite Hfee|].
    apply Zfloor_lub. simpl. lra. }
  split; [rewrite Hfee; lra|].
  rewrite Hshare. split; [|lra].
  destruct (Rle_dec (3 / 5) a) as [Hbig|Hsmall].
  - rewrite Hfee. lra.
  - assert (Hz : (Zfloor (a * 0.15 + 1 / 2) < 1)%Z).
    { apply lt_IZR. pose proof (Zfloor_bound (a * 0.15 + 1 / 2)) as [Hb _].
      simpl. lra. }
    assert (Hf : f <= 0).
    { rewrite Hfee. unfold js_round. apply (IZR_le _ 0). lia. }
    lra.
Qed.

Lemma order_price_bounds_witness :
  let pay := compute_payment (mkPricing (Some 500) (Some 3000)) "location_jour"
               (mkGeo 6.37 2.39) None in
  0 < amount pay ∧ 0 <= driverShare pay <= amount pay.
Proof.
  cbn zeta.
  destruct (order_price_bounds (mkPricing (Some 500) (Some 3000)) "location_jour"
              (mkGeo 6.37 2.39) None) as (Hpos & _ & _ & _ & Hshare).
  - simpl. lra.
  - split; [exact Hpos | exact Hshare].
Defined.

(** X13: when the distance is ignored.  For a service type other than
    [transport], for an order without drop-off point, and for a pick-up or
    drop-off latitude of exactly 0, the amount is the vehicle's minimum
    price (5000 when that is missing or zero), however far apart the
    endpoints are and whatever the per-km rate is. *)
Theorem amount_is_minimum_price_without_distance (p : pricing)
    (serviceType : string) (pickup : geo) (dropoff : option geo) :
  serviceType ≠ "transport"
  ∨ dropoff = None
  ∨ geo_lat pickup = 0
  ∨ (∃ d, dropoff = Some d ∧ geo_lat d = 0) →
  amount (compute_payment p serviceType pickup dropoff)
  = num_or (minimumPrice p) 5000.
Proof.
  intros Hcase. unfold compute_payment. cbn [amount].
  destruct dropoff as [d|]; [|done].
  destruct Hcase as [Hs|[Hn|[Hp|(d' & [= <-] & Hd)]]].
  - by rewrite (bool_decide_eq_false_2 _ Hs).
  - done.
  - rewrite Hp, num_truthy_0. by rewrite andb_false_r.
  - rewrite Hd, num_truthy_0. by rewrite andb_false_r.
Qed.

Lemma amount_is_minimum_price_without_distance_witness :
  amount (compute_payment (mkPricing (Some 900) (Some 3000)) "transport"
            (mkGeo 0 9.45) (Some (mkGeo 6.37 2.39)))
  = 3000.
Proof.
  rewrite (amount_is_minimum_price_without_distance
             (mkPricing (Some 900) (Some 3000)) "transport"
             (mkGeo 0 9.45) (Some (mkGeo 6.37 2.39))).
  - simpl. rewrite num_truthy_true by lra. reflexivity.
  - right. right. left. reflexivity.
Defined.

(** * Further properties of the order and wallet routes *)

Lemma post_orders_ok uid new_id vehicleId serviceType pickup dropoff db v :
  vehicles db !! vehicleId = Some v →
  isAvailable v = true →
  is_Some (users db !! vehicle_driverId v) →
  serviceType ∈ service_type_enum →
  post_orders uid new_id vehicleId serviceType pickup dropoff db
  = (mkDb (<[new_id := mkOrder uid (Some (vehicle_driverId v)) "pending"
                         serviceType [] (estimate_km pickup dropoff) None
                         (compute_payment (vehicle_pricing v) serviceType
                            pickup dropoff) None None]> (orders db))
          (users db) (vehicles db) (transactions db), 201%nat).
Proof.
  intros Hv Hav [ud Hud] Hin. unfold post_orders. rewrite Hv, Hav, Hud.
  cbn [negb]. by rewrite (bool_decide_eq_true_2 _ Hin).
Qed.





(** A vehicle whose driver is no stored user: the route answers 500 and
    stores nothing. *)
Example order_creation_without_stored_driver :
  let v := mkVehicle "d1" true (mkPricing (Some 500) (Some 3000)) in
  let db := mkDb ∅ ∅ {["v1" := v]} ∅ in
  post_orders "c1" "o1" "v1" "transport" (mkGeo 6.37 2.39)
    (Some (mkGeo 6.45 2.5)) db
  = (db, 500%nat).
Proof.
  cbn zeta. unfold post_orders. cbn [vehicles users].
  rewrite lookup_singleton_eq. cbn [isAvailable negb vehicle_driverId].
  by rewrite lookup_empty.
Qed.

(** X15: what a status update leaves alone.  Whatever its outcome, the
    request changes no other order, no vehicle, no wallet transaction and
    no wallet balance; it changes no user at all unless the requested
    status is [completed]; and the order it names keeps its client, driver,
    service type, payment record, tracking sequence and estimated
    distance. *)
Theorem status_update_frame
    (now : time) (uid utype id new_status : string) (db : database) :
  let r := put_order_status now uid utype id new_status db in
  vehicles r.1 = vehicles db
  ∧ transactions r.1 = transactions db
  ∧ (∀ id', id' ≠ id → orders r.1 !! id' = orders db !! id')
  ∧ (new_status ≠ "completed" → users r.1 = users db)
  ∧ (∀ u, wallet_balance <$> users r.1 !! u = wallet_balance <$> users db !! u)
  ∧ (∀ u, user_type <$> users r.1 !! u = user_type <$> users db !! u)
  ∧ (∀ o', orders r.1 !! id = Some o' →
       ∃ o, orders db !! id = Some o
            ∧ order_clientId o' = order_clientId o
            ∧ order_driverId o' = order_driverId o
            ∧ order_serviceType o' = order_serviceType o
            ∧ order_payment o' = order_payment o
            ∧ order_tracking o' = order_tracking o
            ∧ estimated_km o' = estimated_km o).
Proof.
  cbn zeta. unfold put_order_status.
  destruct (orders db !! id) as [o|] eqn:Ho.
  2:{ split_and!; try done. intros o' Ho'. cbn [fst] in Ho'. congruence. }
  destruct (order_driverId o) as [drv|] eqn:Hd.
  2:{ split_and!; try done. intros o' Ho'. cbn [fst] in Ho'.
      exists o. by simplify_eq. }
  destruct (negb (bool_decide (drv = uid)) && negb (bool_decide (utype = "admin"))).
  { split_and!; try done. intros o' Ho'. cbn [fst] in Ho'.
    exists o. by simplify_eq. }
  assert (Husers : ∀ (f : user → R) km,
    (∀ u0, f (mkUser (user_type u0) (totalTrips u0 + 1) (totalKm u0 + km)
                (wallet_balance u0)) = f u0) →
    ∀ u, f <$> (if bool_decide (new_status = "completed")
                then inc_driver_stats drv 1 km (users db)
                else users db) !! u = f <$> users db !! u).
  { intros f km Hf u. destruct (bool_decide (new_status = "completed")); [|done].
    unfold inc_driver_stats. destruct (decide (u = drv)) as [->|Hne].
    - rewrite lookup_alter_eq. destruct (users db !! drv); simpl; [|done].
      by rewrite Hf.
    - by rewrite lookup_alter_ne. }
  assert (Htype : ∀ km u,
    user_type <$> (if bool_decide (new_status = "completed")
                   then inc_driver_stats drv 1 km (users db)
                   else users db) !! u = user_type <$> users db !! u).
  { intros km u. destruct (bool_decide (new_status = "completed")); [|done].
    unfold inc_driver_stats. destruct (decide (u = drv)) as [->|Hne].
    - rewrite lookup_alter_eq. by destruct (users db !! drv).
    - by rewrite lookup_alter_ne. }
  destruct (bool_decide (new_status ∈ order_status_enum)); cbn [fst];
    cbn [vehicles transactions orders users].
  - split_and!; try done.
    + intros id' Hne. by rewrite lookup_insert_ne.
    + intros Hnc. by rewrite (bool_decide_eq_false_2 _ Hnc).
    + intros u. by apply (Husers wallet_balance).
    + intros o'. rewrite lookup_insert_eq. intros [= <-]. by exists o.
  - split_and!; try done.
    + intros Hnc. by rewrite (bool_decide_eq_false_2 _ Hnc).
    + intros u. by apply (Husers wallet_balance).
    + intros o' Ho'. exists o. by simplify_eq.
Qed.

Lemma status_update_frame_witness :
  let o := mkOrder "c1" (Some "d1") "accepted" "transport" [] (Some 12) None
             (mkPayment 3000 450 2550 "pending") None None in
  let db := mkDb {["o1" := o]} {["d1" := mkUser "driver" 0 0 700]} ∅ ∅ in
  let r := put_order_status 5 "d1" "driver" "o1" "in_transit" db in
  users r.1 = users db
  ∧ ∃ o0, orders db !! "o1" = Some o0 ∧ order_payment o0 = order_payment o.
Proof.
  cbn zeta.
  set (o := mkOrder _ _ _ _ _ _ _ _ _ _).
  destruct (status_update_frame 5 "d1" "driver" "o1" "in_transit"
              (mkDb {["o1" := o]} {["d1" := mkUser "driver" 0 0 700]} ∅ ∅))
    as (_ & _ & _ & Husers & _ & _ & Hsame).
  split; [apply Husers; discriminate|].
  exists o. split; [apply lookup_singleton_eq | reflexivity].
Defined.

(** X16: completing an order that has fewer than two tracked points and no
    actual distance yet.  No actual distance is computed: [actual_km] stays
    unset, the driver's trip count grows by 1, and the cumulative distance
    grows by the estimated distance, or by nothing when the order has no
    estimate. *)
Theorem completion_without_tracking_credits_estimate
    (now : time) (uid utype id drv : string) (db : database)
    (o : order) (u : user) :
  orders db !! id = Some o →
  order_driverId o = Some drv →
  users db !! drv = Some u →
  drv = uid ∨ utype = "admin" →
  (length (order_tracking o) < 2)%nat →
  actual_km o = None →
  let r := put_order_status now uid utype id "completed" db in
  r.2 = 200%nat
  ∧ actual_km <$> orders r.1 !! id = Some None
  ∧ completedAt <$> orders r.1 !! id = Some (Some now)
  ∧ users r.1 !! drv
    = Some (mkUser (user_type u) (totalTrips u + 1)
              (totalKm u + default 0 (estimated_km o)) (wallet_balance u)).
Proof.
  intros Ho Hd Hu Hauth Hlen Hact. cbn zeta.
  rewrite (put_completed_ok _ _ _ _ _ _ _ Ho Hd Hauth).
  assert (Hkm : completed_actual_km o = None).
  { unfold completed_actual_km. rewrite bool_decide_eq_false_2 by lia. done. }
  cbn [fst snd orders users]. rewrite lookup_insert_eq, Hkm.
  split_and!; try done.
  unfold inc_driver_stats. rewrite lookup_alter_eq, Hu.
  cbn [fmap option_fmap option_map]. unfold stats_km. cbn [num_or].
  by rewrite num_or_default_0.
Qed.

Lemma completion_without_tracking_credits_estimate_witness :
  let o := mkOrder "c1" (Some "d1") "unloading" "transport" [] (Some 12) None
             (mkPayment 3000 450 2550 "pending") None None in
  let db := mkDb {["o1" := o]} {["d1" := mkUser "driver" 3 40 0]} ∅ ∅ in
  let r := put_order_status 5 "d1" "driver" "o1" "completed" db in
  users r.1 !! "d1" = Some (mkUser "driver" (3 + 1) (40 + 12) 0).
Proof.
  cbn zeta.
  set (o := mkOrder _ _ _ _ _ _ _ _ _ _).
  destruct (completion_without_tracking_credits_estimate 5 "d1" "driver" "o1"
              "d1" (mkDb {["o1" := o]} {["d1" := mkUser "driver" 3 40 0]} ∅ ∅)
              o (mkUser "driver" 3 40 0)) as (_ & _ & _ & Hdrv).
  - apply lookup_singleton_eq.
  - reflexivity.
  - apply lookup_singleton_eq.
  - by left.
  - simpl. lia.
  - reflexivity.
  - exact Hdrv.
Defined.

(** X17: guards and reach of the recharge confirmation.  The request
    succeeds exactly when the caller is an admin and the transaction
    exists (403 for a non-admin, whether or not the transaction exists);
    a request that does not succeed changes nothing; a successful
    one changes no order, no vehicle, no other transaction, and of the
    users only the wallet balance of the transaction's owner: types, trip
    counts and distances stay as they were. *)
Theorem confirm_recharge_guards_and_frame
    (now : time) (uid utype txid : string) (db : database) :
  let r := confirm_recharge now uid utype txid db in
  (r.2 = 200%nat ↔ utype = "admin" ∧ is_Some (transactions db !! txid))
  ∧ (utype ≠ "admin" → r = (db, 403%nat))
  ∧ (r.2 ≠ 200%nat → r.1 = db)
  ∧ orders r.1 = orders db
  ∧ vehicles r.1 = vehicles db
  ∧ (∀ t, t ≠ txid → transactions r.1 !! t = transactions db !! t)
  ∧ (∀ tx u, transactions db !! txid = Some tx → u ≠ wt_userId tx →
             users r.1 !! u = users db !! u)
  ∧ (∀ u, user_type <$> users r.1 !! u = user_type <$> users db !! u)
  ∧ (∀ u, totalTrips <$> users r.1 !! u = totalTrips <$> users db !! u)
  ∧ (∀ u, totalKm <$> users r.1 !! u = totalKm <$> users db !! u).
Proof.
  cbn zeta. unfold confirm_recharge.
  destruct (bool_decide (utype = "admin")) eqn:Ha; cbn [negb].
  2:{ apply bool_decide_eq_false_1 in Ha. split_and!; try done.
      split; [intros Hc; cbn [snd] in Hc; discriminate Hc | by intros [? _]]. }
  apply bool_decide_eq_true_1 in Ha.
  destruct (transactions db !! txid) as [tx|] eqn:Ht.
  2:{ split_and!; try done.
      split; [intros Hc; cbn [snd] in Hc; discriminate Hc|].
      intros [_ [x Hx]]. discriminate Hx. }
  assert (Hfield : ∀ (A : Type) (f : user → A),
    (∀ u0, f (mkUser (user_type u0) (totalTrips u0) (totalKm u0)
                (wallet_balance u0 + wt_amount tx)) = f u0) →
    ∀ u, f <$> credit_wallet (wt_userId tx) (wt_amount tx) (users db) !! u
         = f <$> users db !! u).
  { intros A f Hf u. unfold credit_wallet.
    destruct (decide (u = wt_userId tx)) as [->|Hne].
    - rewrite lookup_alter_eq. destruct (users db !! wt_userId tx); simpl; [|done].
      by rewrite Hf.
    - by rewrite lookup_alter_ne. }
  cbn [fst snd orders vehicles transactions users].
  split_and!; try done;
    try (by apply (Hfield _ user_type));
    try (by apply (Hfield _ totalTrips));
    try (by apply (Hfield _ totalKm)).
  - intros t Hne. by rewrite lookup_insert_ne.
  - intros tx' u [= <-] Hne. unfold credit_wallet. by rewrite lookup_alter_ne.
Qed.

Lemma confirm_recharge_guards_and_frame_witness :
  let tx := mkWalletTransaction "d1" 1000 "pending" None None in
  let db := mkDb ∅ {["d1" := mkUser "driver" 0 0 0]} ∅ {["t1" := tx]} in
  confirm_recharge 5 "d1" "driver" "t1" db = (db, 403%nat).
Proof.
  cbn zeta.
  destruct (confirm_recharge_guards_and_frame 5 "d1" "driver" "t1"
              (mkDb ∅ {["d1" := mkUser "driver" 0 0 0]} ∅
                 {["t1" := mkWalletTransaction "d1" 1000 "pending" None None]}))
    as (_ & Hnon & _).
  apply Hnon. discriminate.
Defined.

(** * The respond and payment routes *)

Lemma save_order_lookup id o e s :
  orders (core (save_order id o e s)) !! id = Some o
  ∧ extra_of id (save_order id o e s) = e.
Proof.
  unfold extra_of, save_order. cbn [core orders order_extras].
  by rewrite !lookup_insert_eq.
Qed.

Lemma put_order_respond_ok now uid id accept s o :
  orders (core s) !! id = Some o →
  order_driverId o = Some uid →
  put_order_respond now uid id accept s
  = if truthy accept
    then (save_order id (set_order_status o "accepted")
            (mkOrderExtra (Some now) (cancelledAt (extra_of id s))
               (cancelReason (extra_of id s)) (proofImage (extra_of id s))
               (proofTransactionId (extra_of id s))
               (proofSubmittedAt (extra_of id s))
               (payment_confirmedAt (extra_of id s))
               (payment_confirmedBy (extra_of id s))) s,
          200%nat, [OrderStatusEvent id "accepted"])
    else (save_order id (set_order_status o "cancelled")
            (mkOrderExtra (acceptedAt (extra_of id s)) (Some now)
               (Some "Driver refused") (proofImage (extra_of id s))
               (proofTransactionId (extra_of id s))
               (proofSubmittedAt (extra_of id s))
               (payment_confirmedAt (extra_of id s))
               (payment_confirmedBy (extra_of id s))) s,
          200%nat, []).
Proof.
  intros Ho Hd. unfold put_order_respond. rewrite Ho, Hd.
  by rewrite (bool_decide_eq_true_2 (uid = uid)).
Qed.

(** X18: who may respond to an order, and what the answer does.  The
    request succeeds exactly when the order exists and the caller is its
    assigned driver; an unknown order is answered with 403, like a foreign
    one, and an admin has no special right here.  A request that does not
    succeed changes nothing and emits nothing.  A successful one, whatever
    the current status of the order, stores [accepted] with the acceptance
    time and emits the status event when [accept] is truthy, and stores
    [cancelled] with the reason [Driver refused] and emits nothing
    otherwise. *)
Theorem respond_outcomes
    (now : time) (uid id : string) (accept : jsval) (s : store) :
  let r := put_order_respond now uid id accept s in
  (r.1.2 = 200%nat
   ↔ ∃ o, orders (core s) !! id = Some o ∧ order_driverId o = Some uid)
  ∧ (orders (core s) !! id = None → r = (s, 403%nat, []))
  ∧ (r.1.2 ≠ 200%nat → r.1.1 = s ∧ r.2 = [])
  ∧ (r.1.2 = 200%nat →
     if truthy accept
     then order_status <$> orders (core r.1.1) !! id = Some "accepted"
          ∧ acceptedAt (extra_of id r.1.1) = Some now
          ∧ r.2 = [OrderStatusEvent id "accepted"]
     else order_status <$> orders (core r.1.1) !! id = Some "cancelled"
          ∧ cancelledAt (extra_of id r.1.1) = Some now
          ∧ cancelReason (extra_of id r.1.1) = Some "Driver refused"
          ∧ r.2 = []).
Proof.
  cbn zeta.
  assert (Hiff : (put_order_respond now uid id accept s).1.2 = 200%nat
    ↔ ∃ o, orders (core s) !! id = Some o ∧ order_driverId o = Some uid).
  { split.
    - unfold put_order_respond.
      destruct (orders (core s) !! id) as [o|]; [|done].
      destruct (order_driverId o) as [drv|] eqn:Hd; [|done].
      destruct (bool_decide (drv = uid)) eqn:Hu; [|done].
      apply bool_decide_eq_true_1 in Hu as ->. intros _. by exists o.
    - intros (o & Ho & Hd). rewrite (put_order_respond_ok _ _ _ _ _ _ Ho Hd).
      by destruct (truthy accept). }
  split; [exact Hiff|]. split_and!.
  - intros Hn. unfold put_order_respond. by rewrite Hn.
  - unfold put_order_respond.
    destruct (orders (core s) !! id) as [o|]; [|done].
    destruct (order_driverId o) as [drv|]; [|done].
    destruct (bool_decide (drv = uid)); [|done]. cbn [negb].
    by destruct (truthy accept).
  - intros Hok. apply Hiff in Hok as (o & Ho & Hd).
    rewrite (put_order_respond_ok _ _ _ _ _ _ Ho Hd).
    destruct (truthy accept); cbn [fst snd];
      destruct (save_order_lookup id (set_order_status o "accepted")
        (mkOrderExtra (Some now) (cancelledAt (extra_of id s))
           (cancelReason (extra_of id s)) (proofImage (extra_of id s))
           (proofTransactionId (extra_of id s)) (proofSubmittedAt (extra_of id s))
           (payment_confirmedAt (extra_of id s))
           (payment_confirmedBy (extra_of id s))) s) as [Ha1 Ha2];
      destruct (save_order_lookup id (set_order_status o "cancelled")
        (mkOrderExtra (acceptedAt (extra_of id s)) (Some now)
           (Some "Driver refused") (proofImage (extra_of id s))
           (proofTransactionId (extra_of id s)) (proofSubmittedAt (extra_of id s))
           (payment_confirmedAt (extra_of id s))
           (payment_confirmedBy (extra_of id s))) s) as [Hc1 Hc2].
    + rewrite Ha1, Ha2. done.
    + rewrite Hc1, Hc2. done.
Qed.

Lemma respond_outcomes_witness :
  let o := mkOrder "c1" (Some "d1") "completed" "transport" [] None None
             (mkPayment 3000 450 2550 "pending") None None in
  let s := mkStore (mkDb {["o1" := o]} ∅ ∅ ∅) ∅ in
  let r := put_order_respond 7 "d1" "o1" (JStr "false") s in
  order_status <$> orders (core r.1.1) !! "o1" = Some "accepted".
Proof.
  cbn zeta.
  set (o := mkOrder _ _ _ _ _ _ _ _ _ _).
  destruct (respond_outcomes 7 "d1" "o1" (JStr "false")
              (mkStore (mkDb {["o1" := o]} ∅ ∅ ∅) ∅)) as (Hiff & _ & _ & Hok).
  assert (H200 : (put_order_respond 7 "d1" "o1" (JStr "false")
                    (mkStore (mkDb {["o1" := o]} ∅ ∅ ∅) ∅)).1.2 = 200%nat).
  { apply Hiff. exists o. split; [apply lookup_singleton_eq | reflexivity]. }
  specialize (Hok H200). simpl truthy in Hok. apply Hok.
Defined.

(** X19: [accept] is read by truthiness.  For the assigned driver, a
    request whose [accept] is missing, null, false, 0 or the empty string
    cancels the order, and every other value, the string "false" included,
    accepts it. *)
Theorem respond_reads_accept_by_truthiness
    (now : time) (uid id : string) (s : store) (o : order) :
  orders (core s) !! id = Some o →
  order_driverId o = Some uid →
  let after v :=
    order_status <$> orders (core (put_order_respond now uid id v s).1.1) !! id in
  after JUndefined = Some "cancelled"
  ∧ after JNull = Some "cancelled"
  ∧ after (JBool false) = Some "cancelled"
  ∧ after (JNum 0) = Some "cancelled"
  ∧ after (JStr EmptyString) = Some "cancelled"
  ∧ after (JBool true) = Some "accepted"
  ∧ after (JStr "false") = Some "accepted"
  ∧ (∀ x : R, x ≠ 0%R → after (JNum x) = Some "accepted")
  ∧ (∀ t : string, t ≠ EmptyString → after (JStr t) = Some "accepted").
Proof.
  intros Ho Hd. cbn zeta.
  assert (Hgen : ∀ v,
    order_status <$> orders (core (put_order_respond now uid id v s).1.1) !! id
    = Some (if truthy v then "accepted" else "cancelled")).
  { intros v. rewrite (put_order_respond_ok _ _ _ _ _ _ Ho Hd).
    destruct (truthy v); cbn [fst];
      unfold save_order; cbn [core orders]; by rewrite lookup_insert_eq. }
  split_and!; try (rewrite Hgen; reflexivity).
  - rewrite Hgen. simpl. destruct (Req_dec_T 0 0) as [_|Hne]; [done|].
    by destruct Hne.
  - intros x Hx. rewrite Hgen. simpl. by destruct (Req_dec_T x 0).
  - intros t Ht. rewrite Hgen. simpl. by destruct (decide (t = EmptyString)).
Qed.

Lemma respond_reads_accept_by_truthiness_witness :
  let o := mkOrder "c1" (Some "d1") "pending" "transport" [] None None
             (mkPayment 3000 450 2550 "pending") None None in
  let s := mkStore (mkDb {["o1" := o]} ∅ ∅ ∅) ∅ in
  order_status <$> orders (core (put_order_respond 7 "d1" "o1" JUndefined s).1.1)
                     !! "o1"
  = Some "cancelled".
Proof.
  cbn zeta.
  set (o := mkOrder _ _ _ _ _ _ _ _ _ _).
  destruct (respond_reads_accept_by_truthiness 7 "d1" "o1"
              (mkStore (mkDb {["o1" := o]} ∅ ∅ ∅) ∅) o) as (Hmissing & _).
  - apply lookup_singleton_eq.
  - reflexivity.
  - exact Hmissing.
Defined.

Lemma post_payment_proof_ok now uid id file transactionId s o :
  orders (core s) !! id = Some o →
  order_clientId o = uid →
  file ≠ Some None →
  post_payment_proof now uid id file transactionId s
  = (save_order id (set_payment_status o "proof_submitted")
       (mkOrderExtra (acceptedAt (extra_of id s)) (cancelledAt (extra_of id s))
          (cancelReason (extra_of id s))
          (match file with Some (Some url) => Some url | _ => None end)
          transactionId (Some now)
          (payment_confirmedAt (extra_of id s))
          (payment_confirmedBy (extra_of id s))) s, 200%nat).
Proof.
  intros Ho Hc Hf. unfold post_payment_proof. rewrite Ho.
  rewrite (bool_decide_eq_true_2 _ Hc). cbn [negb].
  by destruct file as [[url|]|].
Qed.

Lemma post_confirm_payment_ok now uid id s o :
  orders (core s) !! id = Some o →
  post_confirm_payment now uid "admin" id s
  = (save_order id (set_payment_status o "confirmed")
       (mkOrderExtra (acceptedAt (extra_of id s)) (cancelledAt (extra_of id s))
          (cancelReason (extra_of id s)) (proofImage (extra_of id s))
          (proofTransactionId (extra_of id s)) (proofSubmittedAt (extra_of id s))
          (Some now) (Some uid)) s,
     200%nat, [OrderPaymentEvent id "confirmed"]).
Proof.
  intros Ho. unfold post_confirm_payment.
  rewrite (bool_decide_eq_true_2 ("admin" = "admin")) by done.
  cbn [negb]. by rewrite Ho.
Qed.

(** X20: who may submit a payment proof.  The request succeeds exactly
    when the order exists, the caller is the order's client and the upload
    of the proof file, if there is one, does not fail.  Anyone else, the
    order's driver and an admin included, gets 403; an unknown order gets
    404; and a request that does not succeed leaves the store, the payment
    status included, unchanged. *)
Theorem payment_proof_guards
    (now : time) (uid id : string) (file : option (option string))
    (transactionId : option string) (s : store) :
  let r := post_payment_proof now uid id file transactionId s in
  (r.2 = 200%nat
   ↔ ∃ o, orders (core s) !! id = Some o ∧ order_clientId o = uid
          ∧ file ≠ Some None)
  ∧ (orders (core s) !! id = None → r = (s, 404%nat))
  ∧ (∀ o, orders (core s) !! id = Some o → order_clientId o ≠ uid →
          r = (s, 403%nat))
  ∧ (r.2 ≠ 200%nat → r.1 = s).
Proof.
  cbn zeta. split_and!.
  - split.
    + unfold post_payment_proof.
      destruct (orders (core s) !! id) as [o|]; [|done].
      destruct (bool_decide (order_clientId o = uid)) eqn:Hc; [|done].
      apply bool_decide_eq_true_1 in Hc. cbn [negb].
      destruct file as [[url|]|]; try done; intros _; exists o; by split_and!.
    + intros (o & Ho & Hc & Hf).
      by rewrite (post_payment_proof_ok _ _ _ _ _ _ _ Ho Hc Hf).
  - intros Hn. unfold post_payment_proof. by rewrite Hn.
  - intros o Ho Hne. unfold post_payment_proof. rewrite Ho.
    by rewrite (bool_decide_eq_false_2 _ Hne).
  - unfold post_payment_proof.
    destruct (orders (core s) !! id) as [o|]; [|done].
    destruct (bool_decide (order_clientId o = uid)); [|done]. cbn [negb].
    by destruct file as [[url|]|].
Qed.

Lemma payment_proof_guards_witness :
  let o := mkOrder "c1" (Some "d1") "completed" "transport" [] None None
             (mkPayment 3000 450 2550 "pending") None None in
  let s := mkStore (mkDb {["o1" := o]} ∅ ∅ ∅) ∅ in
  post_payment_proof 7 "d1" "o1" (Some (Some "https://img/p.png")) (Some "TX9") s
  = (s, 403%nat).
Proof.
  cbn zeta.
  set (o := mkOrder _ _ _ _ _ _ _ _ _ _).
  destruct (payment_proof_guards 7 "d1" "o1" (Some (Some "https://img/p.png"))
              (Some "TX9") (mkStore (mkDb {["o1" := o]} ∅ ∅ ∅) ∅))
    as (_ & _ & Hforeign & _).
  apply (Hforeign o); [apply lookup_singleton_eq | discriminate].
Defined.

(** X21: the payment workflow end to end.  After the client submits a
    proof and an admin confirms the payment, the payment status is
    [confirmed], the proof reference and its submission time are still
    there, the confirming admin and the confirmation time are recorded,
    and amount, platform fee and driver share are what they were. *)
Theorem proof_then_confirmation
    (t1 t2 : time) (client admin id url : string)
    (transactionId : option string) (s : store) (o : order) :
  orders (core s) !! id = Some o →
  order_clientId o = client →
  let s1 := (post_payment_proof t1 client id (Some (Some url)) transactionId s).1 in
  let r := post_confirm_payment t2 admin "admin" id s1 in
  r.1.2 = 200%nat
  ∧ r.2 = [OrderPaymentEvent id "confirmed"]
  ∧ (∃ o', orders (core r.1.1) !! id = Some o'
           ∧ payment_status (order_payment o') = "confirmed"
           ∧ amount (order_payment o') = amount (order_payment o)
           ∧ platformFee (order_payment o') = platformFee (order_payment o)
           ∧ driverShare (order_payment o') = driverShare (order_payment o)
           ∧ order_status o' = order_status o)
  ∧ proofImage (extra_of id r.1.1) = Some url
  ∧ proofTransactionId (extra_of id r.1.1) = transactionId
  ∧ proofSubmittedAt (extra_of id r.1.1) = Some t1
  ∧ payment_confirmedAt (extra_of id r.1.1) = Some t2
  ∧ payment_confirmedBy (extra_of id r.1.1) = Some admin.
Proof.
  intros Ho Hc. cbn zeta.
  rewrite (post_payment_proof_ok _ _ _ _ _ _ _ Ho Hc) by done. cbn [fst].
  set (s1 := save_order _ _ _ _).
  destruct (save_order_lookup id (set_payment_status o "proof_submitted")
    (mkOrderExtra (acceptedAt (extra_of id s)) (cancelledAt (extra_of id s))
       (cancelReason (extra_of id s)) (Some url) transactionId (Some t1)
       (payment_confirmedAt (extra_of id s))
       (payment_confirmedBy (extra_of id s))) s) as [Ho1 He1].
  fold s1 in Ho1, He1.
  rewrite (post_confirm_payment_ok _ _ _ _ _ Ho1). cbn [fst snd].
  set (s2 := save_order _ _ _ _).
  destruct (save_order_lookup id
    (set_payment_status (set_payment_status o "proof_submitted") "confirmed")
    (mkOrderExtra (acceptedAt (extra_of id s1)) (cancelledAt (extra_of id s1))
       (cancelReason (extra_of id s1)) (proofImage (extra_of id s1))
       (proofTransactionId (extra_of id s1)) (proofSubmittedAt (extra_of id s1))
       (Some t2) (Some admin)) s1) as [Ho2 He2].
  fold s2 in Ho2, He2. rewrite He2, He1. cbn.
  split_and!; try done. eexists. split; [exact Ho2|]. done.
Qed.

Lemma proof_then_confirmation_witness :
  let o := mkOrder "c1" (Some "d1") "completed" "transport" [] None None
             (mkPayment 3000 450 2550 "pending") None None in
  let s := mkStore (mkDb {["o1" := o]} ∅ ∅ ∅) ∅ in
  let s1 := (post_payment_proof 7 "c1" "o1" (Some (Some "https://img/p.png"))
               (Some "TX9") s).1 in
  let r := post_confirm_payment 9 "a1" "admin" "o1" s1 in
  r.1.2 = 200%nat ∧ payment_confirmedBy (extra_of "o1" r.1.1) = Some "a1".
Proof.
  cbn zeta.
  set (o := mkOrder _ _ _ _ _ _ _ _ _ _).
  destruct (proof_then_confirmation 7 9 "c1" "a1" "o1" "https://img/p.png"
              (Some "TX9") (mkStore (mkDb {["o1" := o]} ∅ ∅ ∅) ∅) o)
    as (Hcode & _ & _ & _ & _ & _ & _ & Hby).
  - apply lookup_singleton_eq.
  - reflexivity.
  - split; [exact Hcode | exact Hby].
Defined.

(** X22: the payment status is not checked by either route.  An admin can
    confirm a payment for which no proof was ever submitted, whatever its
    status; and a proof submitted by the client after the confirmation
    puts the status back to [proof_submitted], replaces the stored proof
    reference (by none, when the request carries no file) and keeps the
    record of the confirmation. *)
Theorem payment_routes_ignore_the_payment_status
    (t1 t2 : time) (client admin id : string)
    (file : option string) (transactionId : option string)
    (s : store) (o : order) :
  orders (core s) !! id = Some o →
  order_clientId o = client →
  let r1 := post_confirm_payment t1 admin "admin" id s in
  let r2 := post_payment_proof t2 client id (Some <$> file) transactionId r1.1.1 in
  r1.1.2 = 200%nat
  ∧ payment_status ∘ order_payment <$> orders (core r1.1.1) !! id
    = Some "confirmed"
  ∧ r2.2 = 200%nat
  ∧ payment_status ∘ order_payment <$> orders (core r2.1) !! id
    = Some "proof_submitted"
  ∧ proofImage (extra_of id r2.1) = file
  ∧ payment_confirmedAt (extra_of id r2.1) = Some t1
  ∧ payment_confirmedBy (extra_of id r2.1) = Some admin.
Proof.
  intros Ho Hc. cbn zeta.
  rewrite (post_confirm_payment_ok _ _ _ _ _ Ho). cbn [fst snd].
  set (s1 := save_order _ _ _ _).
  destruct (save_order_lookup id (set_payment_status o "confirmed")
    (mkOrderExtra (acceptedAt (extra_of id s)) (cancelledAt (extra_of id s))
       (cancelReason (extra_of id s)) (proofImage (extra_of id s))
       (proofTransactionId (extra_of id s)) (proofSubmittedAt (extra_of id s))
       (Some t1) (Some admin)) s) as [Ho1 He1].
  fold s1 in Ho1, He1.
  rewrite (post_payment_proof_ok _ _ _ _ _ _ _ Ho1 Hc)
    by (destruct file; discriminate).
  cbn [fst snd]. set (s2 := save_order _ _ _ _).
  destruct (save_order_lookup id
    (set_payment_status (set_payment_status o "confirmed") "proof_submitted")
    (mkOrderExtra (acceptedAt (extra_of id s1)) (cancelledAt (extra_of id s1))
       (cancelReason (extra_of id s1))
       (match Some <$> file with Some (Some url) => Some url | _ => None end)
       transactionId (Some t2)
       (payment_confirmedAt (extra_of id s1))
       (payment_confirmedBy (extra_of id s1))) s1) as [Ho2 He2].
  fold s2 in Ho2, He2. rewrite Ho1, Ho2, He2, He1. cbn.
  split_and!; try done. by destruct file.
Qed.

Lemma payment_routes_ignore_the_payment_status_witness :
  let o := mkOrder "c1" (Some "d1") "pending" "transport" [] None None
             (mkPayment 3000 450 2550 "pending") None None in
  let s := mkStore (mkDb {["o1" := o]} ∅ ∅ ∅) ∅ in
  let r1 := post_confirm_payment 4 "a1" "admin" "o1" s in
  let r2 := post_payment_proof 6 "c1" "o1" None None r1.1.1 in
  payment_status ∘ order_payment <$> orders (core r2.1) !! "o1"
  = Some "proof_submitted".
Proof.
  cbn zeta.
  set (o := mkOrder _ _ _ _ _ _ _ _ _ _).
  destruct (payment_routes_ignore_the_payment_status 4 6 "c1" "a1" "o1" None None
              (mkStore (mkDb {["o1" := o]} ∅ ∅ ∅) ∅) o)
    as (_ & _ & _ & Hback & _).
  - apply lookup_singleton_eq.
  - reflexivity.
  - exact Hback.
Defined.

(** * Sequences of requests *)

Lemma order_kept_refl (o : order) : order_kept o o.
Proof. unfold order_kept. split_and!; try done. by left. Qed.

Lemma order_kept_trans (o1 o2 o3 : order) :
  order_kept o1 o2 → order_kept o2 o3 → order_kept o1 o3.
Proof.
  unfold order_kept.
  intros (Hc & Hd & Ht & He & Ha & Hf & Hs & Hk)
         (Hc' & Hd' & Ht' & He' & Ha' & Hf' & Hs' & Hk').
  split_and!; try congruence.
  destruct Hk as [Hk|Hk]; [|by right].
  destruct Hk' as [Hk'|Hk']; [left; congruence | right; by rewrite <- Ht].
Qed.

Section OrderSteps.
Implicit Types (m : gmap string order) (o : order).

(** The three ways a route leaves the order collection. *)
Lemma orders_step_same m id o' :
  m !! id = Some o' →
  (∃ o, m !! id = Some o ∧ order_kept o o') ∨ order_fresh o'.
Proof. intros H. left. exists o'. split; [done | apply order_kept_refl]. Qed.

Lemma orders_step_update m id0 o0 o1 id o' :
  m !! id0 = Some o0 →
  order_kept o0 o1 →
  <[id0 := o1]> m !! id = Some o' →
  (∃ o, m !! id = Some o ∧ order_kept o o') ∨ order_fresh o'.
Proof.
  intros H0 Hk. destruct (decide (id = id0)) as [->|Hne].
  - rewrite lookup_insert_eq. intros [= <-]. left. by exists o0.
  - rewrite lookup_insert_ne by done. apply orders_step_same.
Qed.

Lemma orders_step_create m id0 o1 id o' :
  order_fresh o1 →
  <[id0 := o1]> m !! id = Some o' →
  (∃ o, m !! id = Some o ∧ order_kept o o') ∨ order_fresh o'.
Proof.
  intros Hf. destruct (decide (id = id0)) as [->|Hne].
  - rewrite lookup_insert_eq. intros [= <-]. by right.
  - rewrite lookup_insert_ne by done. apply orders_step_same.
Qed.

End OrderSteps.

Lemma set_order_status_kept o st : order_kept o (set_order_status o st).
Proof. unfold order_kept. split_and!; try done. by left. Qed.

Lemma set_payment_status_kept o st : order_kept o (set_payment_status o st).
Proof. unfold order_kept. split_and!; try done. by left. Qed.

Lemma compute_payment_sum p st pk dr :
  (platformFee (compute_payment p st pk dr)
   + driverShare (compute_payment p st pk dr)
   = amount (compute_payment p st pk dr))%R.
Proof. unfold compute_payment. cbn [platformFee driverShare amount]. lra. Qed.

Lemma post_orders_step uid new_id vehicleId serviceType pickup dropoff db id o' :
  orders (post_orders uid new_id vehicleId serviceType pickup dropoff db).1 !! id
  = Some o' →
  (∃ o, orders db !! id = Some o ∧ order_kept o o') ∨ order_fresh o'.
Proof.
  unfold post_orders.
  destruct (vehicles db !! vehicleId) as [v|]; [|apply orders_step_same].
  destruct (negb (isAvailable v)); [apply orders_step_same|].
  destruct (users db !! vehicle_driverId v); [|apply orders_step_same].
  destruct (bool_decide (serviceType ∈ service_type_enum));
    [|apply orders_step_same].
  cbn [fst orders]. apply orders_step_create.
  unfold order_fresh. cbn [order_status order_payment order_tracking actual_km].
  split_and!; try done. apply compute_payment_sum.
Qed.

Lemma put_order_status_step now uid utype id0 new_status db id o' :
  orders (put_order_status now uid utype id0 new_status db).1 !! id = Some o' →
  (∃ o, orders db !! id = Some o ∧ order_kept o o') ∨ order_fresh o'.
Proof.
  unfold put_order_status.
  destruct (orders db !! id0) as [o0|] eqn:H0; [|apply orders_step_same].
  destruct (order_driverId o0) as [drv|] eqn:Hd; [|apply orders_step_same].
  destruct (negb (bool_decide (drv = uid)) && negb (bool_decide (utype = "admin")));
    [apply orders_step_same|].
  destruct (bool_decide (new_status ∈ order_status_enum));
    [|apply orders_step_same].
  cbn [fst orders]. apply (orders_step_update _ _ o0); [done|].
  unfold order_kept.
  cbn [order_clientId order_driverId order_tracking estimated_km order_payment
       actual_km].
  split_and!; try done.
  destruct (bool_decide (new_status = "completed")); [|by left].
  unfold completed_actual_km.
  destruct (bool_decide (1 < length (order_tracking o0))%nat) eqn:Hl;
    [right; by apply bool_decide_eq_true_1 in Hl | by left].
Qed.

Lemma put_order_respond_step now uid id0 accept s id o' :
  orders (core (put_order_respond now uid id0 accept s).1.1) !! id = Some o' →
  (∃ o, orders (core s) !! id = Some o ∧ order_kept o o') ∨ order_fresh o'.
Proof.
  unfold put_order_respond.
  destruct (orders (core s) !! id0) as [o0|] eqn:H0; [|apply orders_step_same].
  destruct (order_driverId o0) as [drv|] eqn:Hd; [|apply orders_step_same].
  destruct (negb (bool_decide (drv = uid))); [apply orders_step_same|].
  destruct (truthy accept); cbn [fst core save_order orders];
    apply (orders_step_update _ _ o0); try done; apply set_order_status_kept.
Qed.

Lemma post_payment_proof_step now uid id0 file transactionId s id o' :
  orders (core (post_payment_proof now uid id0 file transactionId s).1) !! id
  = Some o' →
  (∃ o, orders (core s) !! id = Some o ∧ order_kept o o') ∨ order_fresh o'.
Proof.
  unfold post_payment_proof.
  destruct (orders (core s) !! id0) as [o0|] eqn:H0; [|apply orders_step_same].
  destruct (negb (bool_decide (order_clientId o0 = uid)));
    [apply orders_step_same|].
  destruct file as [[url|]|]; cbn [fst core save_order orders];
    try apply orders_step_same;
    apply (orders_step_update _ _ o0); try done; apply set_payment_status_kept.
Qed.

Lemma post_confirm_payment_step now uid utype id0 s id o' :
  orders (core (post_confirm_payment now uid utype id0 s).1.1) !! id = Some o' →
  (∃ o, orders (core s) !! id = Some o ∧ order_kept o o') ∨ order_fresh o'.
Proof.
  unfold post_confirm_payment.
  destruct (negb (bool_decide (utype = "admin"))); [apply orders_step_same|].
  destruct (orders (core s) !! id0) as [o0|] eqn:H0; [|apply orders_step_same].
  cbn [fst core save_order orders].
  apply (orders_step_update _ _ o0); try done. apply set_payment_status_kept.
Qed.

Lemma confirm_recharge_orders now uid utype txid db :
  orders (confirm_recharge now uid utype txid db).1 = orders db.
Proof.
  unfold confirm_recharge.
  destruct (negb (bool_decide (utype = "admin"))); [done|].
  by destruct (transactions db !! txid).
Qed.

Lemma serve_step (r : request) (s : store) (id : string) (o' : order) :
  orders (core (serve r s).1) !! id = Some o' →
  (∃ o, orders (core s) !! id = Some o ∧ order_kept o o') ∨ order_fresh o'.
Proof.
  unfold serve.
  destruct (users (core s) !! request_uid r) as [u|]; [|apply orders_step_same].
  destruct r; cbn [on_core fst core].
  - apply post_orders_step.
  - apply put_order_respond_step.
  - apply put_order_status_step.
  - apply post_payment_proof_step.
  - apply post_confirm_payment_step.
  - rewrite confirm_recharge_orders. apply orders_step_same.
Qed.

Section OrderInvariant.
Variable P : order → Prop.
Hypothesis P_kept : ∀ o o', order_kept o o' → P o → P o'.
Hypothesis P_fresh : ∀ o, order_fresh o → P o.

(** A property of orders that creation establishes and that [order_kept]
    carries over holds for every order after every sequence of requests,
    if it held before. *)
Lemma serve_all_invariant (rs : list request) : ∀ s : store,
  (∀ id o, orders (core s) !! id = Some o → P o) →
  ∀ id o, orders (core (serve_all rs s)) !! id = Some o → P o.
Proof.
  induction rs as [|r rs IH]; intros s Hs; cbn [serve_all]; [done|].
  apply IH. intros id o' Ho'.
  destruct (serve_step _ _ _ _ Ho') as [(o & Ho & Hk)|Hf].
  - apply (P_kept o o' Hk). by apply (Hs id).
  - by apply P_fresh.
Qed.

End OrderInvariant.

Local Open Scope R_scope.

(** X23: the commission split is kept.  If platform fee plus driver share
    equals the amount for every stored order, this is still so after any
    sequence of requests to the order, payment and wallet routes: creation
    establishes the equation and no later request changes one of the three
    numbers. *)
Theorem payment_split_is_invariant (rs : list request) (s : store) :
  (∀ id o, orders (core s) !! id = Some o →
     platformFee (order_payment o) + driverShare (order_payment o)
     = amount (order_payment o)) →
  ∀ id o, orders (core (serve_all rs s)) !! id = Some o →
    platformFee (order_payment o) + driverShare (order_payment o)
    = amount (order_payment o).
Proof.
  apply (serve_all_invariant
    (fun o => platformFee (order_payment o) + driverShare (order_payment o)
              = amount (order_payment o))).
  - intros o o' (_ & _ & _ & _ & Ha & Hf & Hs & _) Ho. lra.
  - intros o (_ & _ & _ & _ & Hsum). exact Hsum.
Qed.

Lemma serve_create_ok uid new_id vehicleId serviceType pickup dropoff s u v :
  users (core s) !! uid = Some u →
  vehicles (core s) !! vehicleId = Some v →
  isAvailable v = true →
  is_Some (users (core s) !! vehicle_driverId v) →
  serviceType ∈ service_type_enum →
  orders (core (serve (ReqCreateOrder uid new_id vehicleId serviceType pickup
                         dropoff) s).1) !! new_id
  = Some (mkOrder uid (Some (vehicle_driverId v)) "pending" serviceType []
            (estimate_km pickup dropoff) None
            (compute_payment (vehicle_pricing v) serviceType pickup dropoff)
            None None).
Proof.
  intros Hu Hv Hav Hud Hin. unfold serve. cbn [request_uid]. rewrite Hu.
  unfold on_core. cbn [fst core].
  rewrite (post_orders_ok _ _ _ _ _ _ _ _ Hv Hav Hud Hin). cbn [fst orders].
  apply lookup_insert_eq.
Qed.

Lemma payment_split_is_invariant_witness :
  let us : gmap string user :=
    <["c1" := mkUser "client" 0 0 0]> {["d1" := mkUser "driver" 0 0 0]} in
  let vs : gmap string vehicle :=
    {["v1" := mkVehicle "d1" true (mkPricing (Some 500) (Some 3000))]} in
  let rs := [ReqCreateOrder "c1" "o1" "v1" "location_jour" (mkGeo 6.37 2.39) None] in
  ∃ o, orders (core (serve_all rs (store_init us vs))) !! "o1" = Some o
       ∧ platformFee (order_payment o) + driverShare (order_payment o)
         = amount (order_payment o).
Proof.
  cbn zeta. eexists. split.
  - cbn [serve_all].
    apply (serve_create_ok "c1" "o1" "v1" "location_jour" (mkGeo 6.37 2.39) None
             _ (mkUser "client" 0 0 0)
             (mkVehicle "d1" true (mkPricing (Some 500) (Some 3000)))).
    + apply lookup_insert_eq.
    + apply lookup_singleton_eq.
    + reflexivity.
    + exists (mkUser "driver" 0 0 0). cbn [store_init core users vehicle_driverId].
      rewrite lookup_insert_ne by discriminate. apply lookup_singleton_eq.
    + apply list_elem_of_further, list_elem_of_further, list_elem_of_here.
  - apply (payment_split_is_invariant
             [ReqCreateOrder "c1" "o1" "v1" "location_jour" (mkGeo 6.37 2.39) None]
             (store_init (<["c1" := mkUser "client" 0 0 0]> {["d1" := mkUser "driver" 0 0 0]})
                {["v1" := mkVehicle "d1" true (mkPricing (Some 500) (Some 3000))]})
             ltac:(intros id o Ho; cbn in Ho; by rewrite lookup_empty in Ho)
             "o1").
    cbn [serve_all].
    apply (serve_create_ok "c1" "o1" "v1" "location_jour" (mkGeo 6.37 2.39) None
             _ (mkUser "client" 0 0 0)
             (mkVehicle "d1" true (mkPricing (Some 500) (Some 3000)))).
    + apply lookup_insert_eq.
    + apply lookup_singleton_eq.
    + reflexivity.
    + exists (mkUser "driver" 0 0 0). cbn [store_init core users vehicle_driverId].
      rewrite lookup_insert_ne by discriminate. apply lookup_singleton_eq.
    + apply list_elem_of_further, list_elem_of_further, list_elem_of_here.
Defined.

(** X24: tracking points are never recorded.  Starting from a store
    without orders, after any sequence of requests to the order, payment
    and wallet routes every order has an empty tracking sequence and no
    actual distance: none of these routes writes [tracking], so the
    distance computation of the [completed] branch never runs for an order
    created through them. *)
Theorem tracking_is_never_recorded
    (rs : list request) (us : gmap string user) (vs : gmap string vehicle)
    (id : string) (o : order) :
  orders (core (serve_all rs (store_init us vs))) !! id = Some o →
  order_tracking o = [] ∧ actual_km o = None.
Proof.
  apply (serve_all_invariant
    (fun o => order_tracking o = [] ∧ actual_km o = None)).
  - intros o1 o2 (_ & _ & Ht & _ & _ & _ & _ & Hk) [Ht1 Hk1].
    split; [congruence|].
    destruct Hk as [Hk|Hk]; [congruence|]. rewrite Ht1 in Hk. simpl in Hk. lia.
  - intros o1 (_ & _ & Ht & Hk & _). done.
  - intros id' o' Ho'. cbn in Ho'. by rewrite lookup_empty in Ho'.
Qed.

Lemma tracking_is_never_recorded_witness :
  let us : gmap string user :=
    <["c1" := mkUser "client" 0 0 0]> {["d1" := mkUser "driver" 0 0 0]} in
  let vs : gmap string vehicle :=
    {["v1" := mkVehicle "d1" true (mkPricing (Some 500) (Some 3000))]} in
  let rs := [ReqCreateOrder "c1" "o1" "v1" "location_jour" (mkGeo 6.37 2.39) None] in
  ∃ o, orders (core (serve_all rs (store_init us vs))) !! "o1" = Some o
       ∧ order_tracking o = [] ∧ actual_km o = None.
Proof.
  cbn zeta.
  assert (Ho : orders (core (serve_all
             [ReqCreateOrder "c1" "o1" "v1" "location_jour" (mkGeo 6.37 2.39) None]
             (store_init (<["c1" := mkUser "client" 0 0 0]> {["d1" := mkUser "driver" 0 0 0]})
                {["v1" := mkVehicle "d1" true
                            (mkPricing (Some 500) (Some 3000))]}))) !! "o1"
         = Some (mkOrder "c1" (Some "d1") "pending" "location_jour" []
                   (estimate_km (mkGeo 6.37 2.39) None) None
                   (compute_payment (mkPricing (Some 500) (Some 3000))
                      "location_jour" (mkGeo 6.37 2.39) None) None None)).
  { cbn [serve_all].
    apply (serve_create_ok "c1" "o1" "v1" "location_jour" (mkGeo 6.37 2.39) None
             _ (mkUser "client" 0 0 0)
             (mkVehicle "d1" true (mkPricing (Some 500) (Some 3000)))).
    - apply lookup_insert_eq.
    - apply lookup_singleton_eq.
    - reflexivity.
    - exists (mkUser "driver" 0 0 0). cbn [store_init core users vehicle_driverId].
      rewrite lookup_insert_ne by discriminate. apply lookup_singleton_eq.
    - apply list_elem_of_further, list_elem_of_further, list_elem_of_here. }
  eexists. split; [exact Ho|].
  exact (tracking_is_never_recorded _ _ _ _ _ Ho).
Defined.

Lemma post_orders_users uid new_id vehicleId serviceType pickup dropoff db :
  users (post_orders uid new_id vehicleId serviceType pickup dropoff db).1
  = users db.
Proof.
  unfold post_orders.
  destruct (vehicles db !! vehicleId) as [v|]; [|done].
  destruct (negb (isAvailable v)); [done|].
  destruct (users db !! vehicle_driverId v); [|done].
  by destruct (bool_decide (serviceType ∈ service_type_enum)).
Qed.

Lemma put_order_respond_users now uid id accept s :
  users (core (put_order_respond now uid id accept s).1.1) = users (core s).
Proof.
  unfold put_order_respond.
  destruct (orders (core s) !! id) as [o|]; [|done].
  destruct (order_driverId o) as [drv|]; [|done].
  destruct (negb (bool_decide (drv = uid))); [done|].
  by destruct (truthy accept).
Qed.

Lemma post_payment_proof_users now uid id file transactionId s :
  users (core (post_payment_proof now uid id file transactionId s).1)
  = users (core s).
Proof.
  unfold post_payment_proof.
  destruct (orders (core s) !! id) as [o|]; [|done].
  destruct (negb (bool_decide (order_clientId o = uid))); [done|].
  by destruct file as [[url|]|].
Qed.

Lemma post_confirm_payment_users now uid utype id s :
  users (core (post_confirm_payment now uid utype id s).1.1) = users (core s).
Proof.
  unfold post_confirm_payment.
  destruct (negb (bool_decide (utype = "admin"))); [done|].
  by destruct (orders (core s) !! id).
Qed.

Lemma put_order_status_users_field {A} (f : user → A)
    now uid utype id new_status db u :
  (∀ u0 (km : R), f (mkUser (user_type u0) (totalTrips u0 + 1) (totalKm u0 + km)
                       (wallet_balance u0)) = f u0) →
  f <$> users (put_order_status now uid utype id new_status db).1 !! u
  = f <$> users db !! u.
Proof.
  intros Hf. unfold put_order_status.
  destruct (orders db !! id) as [o|]; [|done].
  destruct (order_driverId o) as [drv|]; [|done].
  destruct (negb (bool_decide (drv = uid)) && negb (bool_decide (utype = "admin")));
    [done|].
  assert (Hu : ∀ km,
    f <$> (if bool_decide (new_status = "completed")
           then inc_driver_stats drv 1 km (users db) else users db) !! u
    = f <$> users db !! u).
  { intros km. destruct (bool_decide (new_status = "completed")); [|done].
    unfold inc_driver_stats. destruct (decide (u = drv)) as [->|Hne].
    - rewrite lookup_alter_eq. destruct (users db !! drv); simpl; [|done].
      by rewrite Hf.
    - by rewrite lookup_alter_ne. }
  destruct (bool_decide (new_status ∈ order_status_enum)); cbn [fst users];
    apply Hu.
Qed.

Lemma confirm_recharge_user_type now uid utype txid db u :
  user_type <$> users (confirm_recharge now uid utype txid db).1 !! u
  = user_type <$> users db !! u.
Proof.
  unfold confirm_recharge.
  destruct (negb (bool_decide (utype = "admin"))); [done|].
  destruct (transactions db !! txid) as [tx|]; [|done].
  cbn [fst users]. unfold credit_wallet.
  destruct (decide (u = wt_userId tx)) as [->|Hne].
  - rewrite lookup_alter_eq. by destruct (users db !! wt_userId tx).
  - by rewrite lookup_alter_ne.
Qed.

(** No request changes the type of a user. *)
Lemma serve_user_type r s u :
  user_type <$> users (core (serve r s).1) !! u
  = user_type <$> users (core s) !! u.
Proof.
  unfold serve.
  destruct (users (core s) !! request_uid r) as [u0|]; [|done].
  destruct r; cbn [on_core fst core].
  - by rewrite post_orders_users.
  - by rewrite put_order_respond_users.
  - by apply put_order_status_users_field.
  - by rewrite post_payment_proof_users.
  - by rewrite post_confirm_payment_users.
  - apply confirm_recharge_user_type.
Qed.

Lemma serve_caller_is_admin r0 r s :
  caller_is_admin r (serve r0 s).1 ↔ caller_is_admin r s.
Proof. unfold caller_is_admin. by rewrite serve_user_type. Qed.

Lemma serve_wallet r s u :
  ¬ caller_is_admin r s →
  wallet_balance <$> users (core (serve r s).1) !! u
  = wallet_balance <$> users (core s) !! u.
Proof.
  unfold caller_is_admin, serve. intros Hna.
  destruct (users (core s) !! request_uid r) as [u0|] eqn:Hu0; [|done].
  destruct r; cbn [on_core fst core].
  - by rewrite post_orders_users.
  - by rewrite put_order_respond_users.
  - by apply put_order_status_users_field.
  - by rewrite post_payment_proof_users.
  - by rewrite post_confirm_payment_users.
  - unfold confirm_recharge. rewrite bool_decide_eq_false_2; [done|].
    intros Hadm. apply Hna. simpl. by rewrite Hadm.
Qed.

(** X25: only an admin can move a wallet balance.  Through any sequence
    of requests to the order, payment and wallet routes in which no caller
    is stored with type [admin], every wallet balance stays what it was. *)
Theorem balances_change_only_by_admin_requests
    (rs : list request) (s : store) (u : string) :
  Forall (fun r => ¬ caller_is_admin r s) rs →
  wallet_balance <$> users (core (serve_all rs s)) !! u
  = wallet_balance <$> users (core s) !! u.
Proof.
  revert s. induction rs as [|r rs IH]; intros s Hall; cbn [serve_all]; [done|].
  apply Forall_cons in Hall as [Hr Hrs].
  rewrite IH; [by apply serve_wallet|].
  eapply Forall_impl; [exact Hrs|]. intros r' Hr'. by rewrite serve_caller_is_admin.
Qed.

Lemma balances_change_only_by_admin_requests_witness :
  let tx := mkWalletTransaction "d1" 1000%R "pending" None None in
  let s := mkStore (mkDb ∅ {["d1" := mkUser "driver" 0%R 0%R 0%R]} ∅
                      {["t1" := tx]}) ∅ in
  wallet_balance <$> users (core (serve_all [ReqConfirmRecharge 5 "d1" "t1";
                                             ReqConfirmRecharge 6 "x9" "t1"] s))
                       !! "d1"
  = Some 0%R.
Proof.
  cbn zeta.
  rewrite (balances_change_only_by_admin_requests
             [ReqConfirmRecharge 5 "d1" "t1"; ReqConfirmRecharge 6 "x9" "t1"]).
  - cbn [core users]. by rewrite lookup_singleton_eq.
  - unfold caller_is_admin. cbn [core users request_uid].
    repeat apply Forall_cons_2; [| |apply Forall_nil_2].
    + rewrite lookup_singleton_eq. discriminate.
    + rewrite lookup_singleton_ne by discriminate. discriminate.
Defined.

Lemma serve_payment_status r s id o' :
  ¬ caller_is_admin r s →
  orders (core (serve r s).1) !! id = Some o' →
  (∃ o, orders (core s) !! id = Some o
        ∧ payment_status (order_payment o') = payment_status (order_payment o))
  ∨ payment_status (order_payment o') = "proof_submitted"
  ∨ payment_status (order_payment o') = "pending".
Proof.
  assert (Hsame : ∀ m : gmap string order, m !! id = Some o' →
    (∃ o, m !! id = Some o
          ∧ payment_status (order_payment o') = payment_status (order_payment o))
    ∨ payment_status (order_payment o') = "proof_submitted"
    ∨ payment_status (order_payment o') = "pending").
  { intros m Hm. left. by exists o'. }
  assert (Hupd : ∀ (m : gmap string order) id0 o0 o1,
    m !! id0 = Some o0 →
    payment_status (order_payment o1) = payment_status (order_payment o0)
    ∨ payment_status (order_payment o1) = "proof_submitted"
    ∨ payment_status (order_payment o1) = "pending" →
    <[id0 := o1]> m !! id = Some o' →
    (∃ o, m !! id = Some o
          ∧ payment_status (order_payment o') = payment_status (order_payment o))
    ∨ payment_status (order_payment o') = "proof_submitted"
    ∨ payment_status (order_payment o') = "pending").
  { intros m id0 o0 o1 H0 H1. destruct (decide (id = id0)) as [->|Hne].
    - rewrite lookup_insert_eq. intros [= <-].
      destruct H1 as [H1|H1]; [left; by exists o0 | by right].
    - rewrite lookup_insert_ne by done. apply Hsame. }
  unfold caller_is_admin, serve. intros Hna.
  destruct (users (core s) !! request_uid r) as [u0|] eqn:Hu0; [|apply Hsame].
  destruct r; cbn [on_core fst core].
  - unfold post_orders.
    destruct (vehicles (core s) !! vehicleId) as [v|]; [|apply Hsame].
    destruct (negb (isAvailable v)); [apply Hsame|].
    destruct (users (core s) !! vehicle_driverId v); [|apply Hsame].
    destruct (bool_decide (serviceType ∈ service_type_enum)); [|apply Hsame].
    cbn [fst orders]. destruct (decide (id = new_id)) as [->|Hne].
    + rewrite lookup_insert_eq. intros [= <-]. right. by right.
    + rewrite lookup_insert_ne by done. apply Hsame.
  - unfold put_order_respond.
    destruct (orders (core s) !! id0) as [o0|] eqn:H0; [|apply Hsame].
    destruct (order_driverId o0) as [drv|]; [|apply Hsame].
    destruct (negb (bool_decide (drv = uid))); [apply Hsame|].
    destruct (truthy accept); cbn [fst core save_order orders];
      apply (Hupd _ _ o0); try done; by left.
  - unfold put_order_status.
    destruct (orders (core s) !! id0) as [o0|] eqn:H0; [|apply Hsame].
    destruct (order_driverId o0) as [drv|]; [|apply Hsame].
    destruct (negb (bool_decide (drv = uid))
              && negb (bool_decide (user_type u0 = "admin"))); [apply Hsame|].
    destruct (bool_decide (new_status ∈ order_status_enum)); [|apply Hsame].
    cbn [fst orders]. apply (Hupd _ _ o0); try done. by left.
  - unfold post_payment_proof.
    destruct (orders (core s) !! id0) as [o0|] eqn:H0; [|apply Hsame].
    destruct (negb (bool_decide (order_clientId o0 = uid))); [apply Hsame|].
    destruct file as [[url|]|]; cbn [fst core save_order orders];
      try apply Hsame; apply (Hupd _ _ o0); try done; right; by left.
  - unfold post_confirm_payment. rewrite bool_decide_eq_false_2.
    + apply Hsame.
    + intros Hadm. apply Hna. simpl. by rewrite Hadm.
  - rewrite confirm_recharge_orders. apply Hsame.
Qed.

(** X26: only an admin can confirm a payment.  Through any sequence of
    requests to the order, payment and wallet routes in which no caller is
    stored with type [admin], an order whose payment status is [confirmed]
    at the end had that status from the start. *)
Theorem payments_are_confirmed_by_admin_requests_only
    (rs : list request) (s : store) (id : string) (o' : order) :
  Forall (fun r => ¬ caller_is_admin r s) rs →
  orders (core (serve_all rs s)) !! id = Some o' →
  payment_status (order_payment o') = "confirmed" →
  ∃ o, orders (core s) !! id = Some o
       ∧ payment_status (order_payment o) = "confirmed".
Proof.
  revert s. induction rs as [|r rs IH]; intros s Hall Ho' Hc; cbn [serve_all] in *.
  - by exists o'.
  - apply Forall_cons in Hall as [Hr Hrs].
    destruct (IH (serve r s).1) as (o1 & Ho1 & Hc1); try done.
    { eapply Forall_impl; [exact Hrs|]. intros r' Hr'.
      by rewrite serve_caller_is_admin. }
    destruct (serve_payment_status r s id o1 Hr Ho1) as [(o & Ho & Heq)|[Hp|Hp]].
    + exists o. split; [done | congruence].
    + rewrite Hc1 in Hp. discriminate Hp.
    + rewrite Hc1 in Hp. discriminate Hp.
Qed.

Lemma payments_are_confirmed_by_admin_requests_only_witness :
  let o := mkOrder "c1" (Some "d1") "completed" "transport" [] None None
             (mkPayment 3000 450 2550 "confirmed")%R None None in
  let s := mkStore (mkDb {["o1" := o]} {["d1" := mkUser "driver" 0%R 0%R 0%R]}
                      ∅ ∅) ∅ in
  ∃ o0, orders (core s) !! "o1" = Some o0
        ∧ payment_status (order_payment o0) = "confirmed".
Proof.
  cbn zeta.
  set (o := mkOrder _ _ _ _ _ _ _ _ _ _).
  apply (payments_are_confirmed_by_admin_requests_only
           [ReqConfirmPayment 5 "d1" "o1"]
           (mkStore (mkDb {["o1" := o]} {["d1" := mkUser "driver" 0%R 0%R 0%R]}
                       ∅ ∅) ∅) "o1" o).
  - unfold caller_is_admin. cbn [core users request_uid].
    apply Forall_cons_2; [|apply Forall_nil_2].
    rewrite lookup_singleton_eq. discriminate.
  - cbn [serve_all]. unfold serve. cbn [request_uid core users].
    rewrite lookup_singleton_eq. unfold post_confirm_payment.
    rewrite bool_decide_eq_false_2 by discriminate. cbn [negb fst core orders].
    apply lookup_singleton_eq.
  - reflexivity.
Defined.

(** * Order numbers and request tokens *)

Local Close Scope R_scope.

Lemma pretty_N_char_not_dash (x : N) : pretty_N_char x ≠ "-"%char.
Proof. unfold pretty_N_char. by repeat case_match. Qed.

Lemma pretty_N_go_no_dash (x : N) : ∀ s,
  string_has "-" s = false → string_has "-" (pretty_N_go x s) = false.
Proof.
  induction (N.lt_wf_0 x) as [x _ IH]; intros s Hs.
  assert (x = 0 ∨ 0 < x)%N as [->|Hx] by lia.
  - by rewrite pretty_N_go_0.
  - rewrite pretty_N_go_step by done. apply IH; [by apply N.div_lt|].
    simpl. rewrite Hs, orb_false_r.
    apply bool_decide_eq_false_2, pretty_N_char_not_dash.
Qed.

Lemma pretty_nat_no_dash (n : nat) : string_has "-" (pretty n) = false.
Proof.
  unfold pretty, pretty_nat, pretty, pretty_N.
  case_decide; [done|]. by apply pretty_N_go_no_dash.
Qed.

Lemma pretty_N_go_head (x : N) : ∀ s,
  (0 < x)%N → ∃ a t, pretty_N_go x s = String a t ∧ a ≠ "0"%char.
Proof.
  induction (N.lt_wf_0 x) as [x _ IH]; intros s Hx.
  rewrite pretty_N_go_step by done.
  destruct (N.eq_0_gt_0_cases (x `div` 10)) as [Hz|Hpos].
  - rewrite Hz, pretty_N_go_0. eexists _, _. split; [done|].
    apply N.div_small_iff in Hz; [|done].
    rewrite N.mod_small by done.
    assert (x = 1 ∨ x = 2 ∨ x = 3 ∨ x = 4 ∨ x = 5 ∨ x = 6
            ∨ x = 7 ∨ x = 8 ∨ x = 9)%N as Hc by lia.
    destruct Hc as [->|[->|[->|[->|[->|[->|[->|[->| ->]]]]]]]]; done.
  - apply IH; [by apply N.div_lt | done].
Qed.

Lemma pretty_nat_head (n : nat) :
  0 < n → ∃ a t, pretty n = String a t ∧ a ≠ "0"%char.
Proof.
  intros Hn. unfold pretty, pretty_nat, pretty, pretty_N.
  rewrite decide_False by lia. apply pretty_N_go_head. lia.
Qed.

Lemma append_split_at (c : Ascii.ascii) (a1 : string) : ∀ a2 r1 r2,
  string_has c a1 = false → string_has c a2 = false →
  a1 +:+ String c r1 = a2 +:+ String c r2 → a1 = a2 ∧ r1 = r2.
Proof.
  induction a1 as [|x a1 IH]; intros [|y a2] r1 r2 H1 H2 Heq; simpl in *.
  - by simplify_eq.
  - simplify_eq. rewrite bool_decide_eq_true_2 in H2 by done. done.
  - simplify_eq. rewrite bool_decide_eq_true_2 in H1 by done. done.
  - apply orb_false_elim in H1 as [_ H1]. apply orb_false_elim in H2 as [_ H2].
    injection Heq as -> Heq. destruct (IH _ _ _ H1 H2 Heq) as [-> ->]. done.
Qed.

Lemma string_repeat_strip (c : Ascii.ascii) (k j : nat) (a b : string) :
  string_repeat k c +:+ a = string_repeat (k + j) c +:+ b →
  a = string_repeat j c +:+ b.
Proof.
  induction k as [|k IH]; simpl; [done|]. intros [= Heq]. by apply IH.
Qed.

Lemma append_length (a b : string) :
  String.length (a +:+ b) = String.length a + String.length b.
Proof. induction a as [|x a IH]; simpl; [done | by rewrite IH]. Qed.

Lemma string_repeat_length (c : Ascii.ascii) (k : nat) :
  String.length (string_repeat k c) = k.
Proof. induction k as [|k IH]; simpl; [done | by rewrite IH]. Qed.

(** Padding with zeros does not identify two strings that do not start
    with a zero. *)
Lemma padStart_zero_inj (n : nat) (p1 p2 : string) :
  (∃ a t, p1 = String a t ∧ a ≠ "0"%char) →
  (∃ a t, p2 = String a t ∧ a ≠ "0"%char) →
  padStart n "0" p1 = padStart n "0" p2 → p1 = p2.
Proof.
  intros (a1 & t1 & E1 & Ha1) (a2 & t2 & E2 & Ha2). unfold padStart.
  set (k1 := n - String.length p1). set (k2 := n - String.length p2).
  intros Heq.
  destruct (Nat.lt_trichotomy k1 k2) as [Hlt|[Heqk|Hgt]].
  - replace k2 with (k1 + (k2 - k1)) in Heq by lia.
    apply string_repeat_strip in Heq.
    destruct (k2 - k1) as [|j] eqn:Hj; [lia|].
    rewrite E1 in Heq. simpl in Heq. injection Heq as Hh _. by destruct Ha1.
  - rewrite Heqk in Heq. by apply (inj (String.app _)) in Heq.
  - replace k1 with (k2 + (k1 - k2)) in Heq by lia. symmetry in Heq.
    apply string_repeat_strip in Heq.
    destruct (k1 - k2) as [|j] eqn:Hj; [lia|].
    rewrite E2 in Heq. simpl in Heq. injection Heq as Hh _. by destruct Ha2.
Qed.

(** X27: order numbers.  The number generated by the save hook determines
    both the year and the count of stored orders it was computed from, so
    orders created one after the other get different numbers (and two
    creations that read the same count in the same year get the same
    one); the hook generates a number only for a document that has none
    and keeps an existing number on every later save. *)
Theorem order_number_determines_year_and_count :
  (∀ y1 c1 y2 c2 : nat,
     generate_order_number y1 c1 = generate_order_number y2 c2 →
     y1 = y2 ∧ c1 = c2)
  ∧ (∀ (y c : nat) (n : string),
       n ≠ EmptyString → pre_save_order_number y c (Some n) = n)
  ∧ (∀ y c : nat,
       pre_save_order_number y c None = generate_order_number y c
       ∧ pre_save_order_number y c (Some EmptyString)
         = generate_order_number y c).
Proof.
  split_and!.
  - intros y1 c1 y2 c2 Heq. unfold generate_order_number in Heq.
    simpl in Heq. injection Heq as Heq.
    apply append_split_at in Heq as [Hy Hp]; try apply pretty_nat_no_dash.
    apply (inj pretty) in Hy. split; [done|].
    apply padStart_zero_inj in Hp; try (apply pretty_nat_head; lia).
    apply (inj pretty) in Hp. lia.
  - intros y c n Hn. unfold pre_save_order_number. by rewrite decide_False.
  - intros y c. by split.
Qed.

Lemma order_number_determines_year_and_count_witness :
  generate_order_number 2026 41 = "ER-2026-00042"
  ∧ generate_order_number 2026 41 ≠ generate_order_number 2026 42.
Proof.
  split; [by vm_compute|].
  destruct order_number_determines_year_and_count as (Hinj & _).
  intros Heq. apply Hinj in Heq as [_ Hc]. discriminate Hc.
Defined.

Lemma substring_all (s : string) : String.substring 0 (String.length s) s = s.
Proof. induction s as [|a s IH]; simpl; [done | by rewrite IH]. Qed.

Lemma substring_0_0 (s : string) : String.substring 0 0 s = EmptyString.
Proof. by destruct s. Qed.

Lemma substring_skip (a b : string) (n : nat) :
  String.substring (String.length a) n (a +:+ b) = String.substring 0 n b.
Proof. induction a as [|x a IH]; simpl; [done | exact IH]. Qed.

Lemma replace_first_bearer_prefix (t : string) :
  replace_first "Bearer " EmptyString ("Bearer " +:+ t) = t.
Proof.
  unfold replace_first.
  assert (Hidx : String.index 0 "Bearer " ("Bearer " +:+ t) = Some 0)
    by (by destruct t).
  rewrite Hidx, substring_0_0.
  change (0 + String.length "Bearer ") with (String.length "Bearer ").
  rewrite append_length, substring_skip.
  replace (String.length "Bearer " + String.length t - String.length "Bearer ")
    with (String.length t) by lia.
  by rewrite substring_all.
Qed.

(** X28: the token of a request.  A request without [authorization]
    header, with an empty one or with the bare scheme [Bearer ] is
    answered 401; a header [Bearer t] yields the token [t]; a header in
    which [Bearer ] does not occur is taken as the token itself; and a
    request passes the middleware only with a token that decodes to the id
    of a stored user, whose stored document is what the route then sees. *)
Theorem request_token_extraction (jwt_verify : string → option string)
    (us : gmap string user) :
  request_token None = None
  ∧ request_token (Some EmptyString) = None
  ∧ request_token (Some "Bearer ") = None
  ∧ (∀ t, t ≠ EmptyString → request_token (Some ("Bearer " +:+ t)) = Some t)
  ∧ (∀ h, h ≠ EmptyString → String.index 0 "Bearer " h = None →
          request_token (Some h) = Some h)
  ∧ (∀ authorization uid u,
       authMiddleware jwt_verify authorization us = inr (uid, u) →
       us !! uid = Some u
       ∧ ∃ token, request_token authorization = Some token
                  ∧ jwt_verify token = Some uid).
Proof.
  split_and!; try done.
  - intros t Ht. unfold request_token.
    rewrite replace_first_bearer_prefix. by rewrite decide_False.
  - intros h Hh Hidx. unfold request_token, replace_first. rewrite Hidx.
    by rewrite decide_False.
  - intros authorization uid u. unfold authMiddleware.
    destruct (request_token authorization) as [token|]; [|done].
    destruct (jwt_verify token) as [uid'|] eqn:Hv; [|done].
    destruct (us !! uid') as [u'|] eqn:Hu; [|done].
    intros [= <- <-]. split; [done|]. by exists token.
Qed.

Lemma request_token_extraction_witness :
  request_token (Some "Bearer abc.def") = Some "abc.def"
  ∧ request_token (Some "abc.def") = Some "abc.def".
Proof.
  destruct (request_token_extraction (fun _ => None) ∅)
    as (_ & _ & _ & Hbearer & Hraw & _).
  split.
  - apply (Hbearer "abc.def"). discriminate.
  - apply (Hraw "abc.def"); [discriminate | reflexivity].
Defined.

(** * An order from creation to completion *)

Local Open Scope R_scope.

Lemma in_transit_in_enum : "in_transit" ∈ order_status_enum.
Proof. unfold order_status_enum. repeat (apply list_elem_of_here || apply list_elem_of_further). Qed.

Lemma transport_in_enum : "transport" ∈ service_type_enum.
Proof. apply list_elem_of_here. Qed.

Lemma serve_create_eq c o v pickup dropoff s uc veh :
  users (core s) !! c = Some uc →
  vehicles (core s) !! v = Some veh →
  isAvailable veh = true →
  is_Some (users (core s) !! vehicle_driverId veh) →
  (serve (ReqCreateOrder c o v "transport" pickup dropoff) s).1
  = mkStore
      (mkDb (<[o := mkOrder c (Some (vehicle_driverId veh)) "pending" "transport"
                       [] (estimate_km pickup dropoff) None
                       (compute_payment (vehicle_pricing veh) "transport"
                          pickup dropoff) None None]> (orders (core s)))
         (users (core s)) (vehicles (core s)) (transactions (core s)))
      (order_extras s).
Proof.
  intros Hc Hv Hav Hud. unfold serve. cbn [request_uid]. rewrite Hc.
  unfold on_core.
  by rewrite (post_orders_ok _ _ _ _ _ _ _ _ Hv Hav Hud transport_in_enum).
Qed.

Lemma serve_respond_accept t d o s u o0 :
  users (core s) !! d = Some u →
  orders (core s) !! o = Some o0 →
  order_driverId o0 = Some d →
  (serve (ReqRespond t d o (JBool true)) s).1
  = save_order o (set_order_status o0 "accepted")
      (mkOrderExtra (Some t) (cancelledAt (extra_of o s))
         (cancelReason (extra_of o s)) (proofImage (extra_of o s))
         (proofTransactionId (extra_of o s)) (proofSubmittedAt (extra_of o s))
         (payment_confirmedAt (extra_of o s)) (payment_confirmedBy (extra_of o s)))
      s.
Proof.
  intros Hu Ho Hd. unfold serve. cbn [request_uid]. rewrite Hu.
  by rewrite (put_order_respond_ok _ _ _ _ _ _ Ho Hd).
Qed.

Lemma serve_status_eq t uid id st s u :
  users (core s) !! uid = Some u →
  (serve (ReqStatus t uid id st) s).1
  = mkStore (put_order_status t uid (user_type u) id st (core s)).1
      (order_extras s).
Proof. intros Hu. unfold serve. cbn [request_uid]. by rewrite Hu. Qed.

(** X29: the life of an order.  A client creates a transport order on an
    available vehicle, the vehicle's driver accepts it, reports it in
    transit and then completed (the intermediate statuses may be skipped).
    The order ends [completed] with the three timestamps of these requests
    and the payment computed at creation; it has no actual distance, and
    the driver's trip count has grown by 1 and the cumulative distance by
    the distance estimated at creation (by nothing when an endpoint
    latitude is 0). *)
Theorem order_lifecycle
    (c d o v : string) (t1 t2 t3 : time) (pickup dropoff : geo)
    (s : store) (uc ud : user) (veh : vehicle) :
  users (core s) !! c = Some uc →
  users (core s) !! d = Some ud →
  vehicles (core s) !! v = Some veh →
  isAvailable veh = true →
  vehicle_driverId veh = d →
  let s' := serve_all [ReqCreateOrder c o v "transport" pickup (Some dropoff);
                       ReqRespond t1 d o (JBool true);
                       ReqStatus t2 d o "in_transit";
                       ReqStatus t3 d o "completed"] s in
  orders (core s') !! o
  = Some (mkOrder c (Some d) "completed" "transport" []
            (estimate_km pickup (Some dropoff)) None
            (compute_payment (vehicle_pricing veh) "transport" pickup
               (Some dropoff))
            (Some t2) (Some t3))
  ∧ acceptedAt (extra_of o s') = Some t1
  ∧ users (core s') !! d
    = Some (mkUser (user_type ud) (totalTrips ud + 1)
              (totalKm ud + default 0 (estimate_km pickup (Some dropoff)))
              (wallet_balance ud)).
Proof.
  intros Hc Hd Hv Hav Hdrv. cbn zeta. cbn [serve_all].
  rewrite (serve_create_eq _ _ _ _ _ _ _ _ Hc Hv Hav
             ltac:(rewrite Hdrv; by exists ud)), Hdrv.
  set (s1 := mkStore _ _).
  assert (Hu1 : users (core s1) = users (core s)) by done.
  assert (Ho1 : orders (core s1) !! o
                = Some (mkOrder c (Some d) "pending" "transport" []
                          (estimate_km pickup (Some dropoff)) None
                          (compute_payment (vehicle_pricing veh) "transport"
                             pickup (Some dropoff)) None None))
    by apply lookup_insert_eq.
  clearbody s1.
  rewrite (serve_respond_accept t1 d o s1 ud _
             ltac:(by rewrite Hu1) Ho1 eq_refl).
  set (e2 := mkOrderExtra _ _ _ _ _ _ _ _).
  set (s2 := save_order _ _ _ _).
  assert (Hu2 : users (core s2) = users (core s)) by (by rewrite <- Hu1).
  destruct (save_order_lookup o
              (set_order_status
                 (mkOrder c (Some d) "pending" "transport" []
                    (estimate_km pickup (Some dropoff)) None
                    (compute_payment (vehicle_pricing veh) "transport"
                       pickup (Some dropoff)) None None) "accepted") e2 s1)
    as [Ho2 He2].
  fold s2 in Ho2, He2. clearbody s2.
  rewrite (serve_status_eq t2 d o "in_transit" s2 ud ltac:(by rewrite Hu2)).
  rewrite (put_order_status_ok _ _ _ _ _ _ _ _ Ho2 eq_refl (or_introl eq_refl)
             in_transit_in_enum).
  cbn [fst bool_decide]. set (s3 := mkStore _ _).
  assert (Hu3 : users (core s3) = users (core s)) by (by rewrite <- Hu2).
  assert (He3 : extra_of o s3 = e2) by (by rewrite <- He2).
  assert (Ho3 : orders (core s3) !! o
                = Some (mkOrder c (Some d) "in_transit" "transport" []
                          (estimate_km pickup (Some dropoff)) None
                          (compute_payment (vehicle_pricing veh) "transport"
                             pickup (Some dropoff)) (Some t2) None))
    by apply lookup_insert_eq.
  clearbody s3.
  rewrite (serve_status_eq t3 d o "completed" s3 ud ltac:(by rewrite Hu3)).
  rewrite (put_completed_ok _ _ _ _ _ _ _ Ho3 eq_refl (or_introl eq_refl)).
  cbn [fst core orders users]. rewrite lookup_insert_eq.
  assert (Hx : extra_of o
             (mkStore
                (mkDb
                   (<[o := mkOrder c (Some d) "completed" "transport" []
                             (estimate_km pickup (Some dropoff))
                             (completed_actual_km
                                (mkOrder c (Some d) "in_transit" "transport" []
                                   (estimate_km pickup (Some dropoff)) None
                                   (compute_payment (vehicle_pricing veh)
                                      "transport" pickup (Some dropoff))
                                   (Some t2) None))
                             (compute_payment (vehicle_pricing veh) "transport"
                                pickup (Some dropoff)) (Some t2) (Some t3)]>
                      (orders (core s3)))
                   (inc_driver_stats d 1
                      (stats_km
                         (completed_actual_km
                            (mkOrder c (Some d) "in_transit" "transport" []
                               (estimate_km pickup (Some dropoff)) None
                               (compute_payment (vehicle_pricing veh)
                                  "transport" pickup (Some dropoff))
                               (Some t2) None))
                         (estimate_km pickup (Some dropoff)))
                      (users (core s3)))
                   (vehicles (core s3)) (transactions (core s3)))
                (order_extras s3)) = e2) by exact He3.
  cbn [order_clientId order_driverId order_serviceType order_tracking
       estimated_km order_payment startedAt] in *.
  rewrite Hx. unfold completed_actual_km.
  cbn [order_tracking actual_km length].
  rewrite bool_decide_eq_false_2 by lia.
  split_and!; try done.
  unfold inc_driver_stats. rewrite lookup_alter_eq, Hu3, Hd.
  cbn [fmap option_fmap option_map]. f_equal. f_equal.
  unfold stats_km. cbn [num_or]. by rewrite num_or_default_0.
Qed.

Lemma order_lifecycle_witness :
  let us : gmap string user :=
    <["c1" := mkUser "client" 0 0 0]> {["d1" := mkUser "driver" 3 40 0]} in
  let vs : gmap string vehicle :=
    {["v1" := mkVehicle "d1" true (mkPricing (Some 500) (Some 3000))]} in
  let s' := serve_all [ReqCreateOrder "c1" "o1" "v1" "transport" (mkGeo 0 2.39)
                         (Some (mkGeo 6.45 2.5));
                       ReqRespond 1 "d1" "o1" (JBool true);
                       ReqStatus 2 "d1" "o1" "in_transit";
                       ReqStatus 3 "d1" "o1" "completed"] (store_init us vs) in
  acceptedAt (extra_of "o1" s') = Some 1%nat
  ∧ users (core s') !! "d1"
    = Some (mkUser "driver" (3 + 1)
              (40 + default 0 (estimate_km (mkGeo 0 2.39) (Some (mkGeo 6.45 2.5))))
              0).
Proof.
  cbn zeta.
  destruct (order_lifecycle "c1" "d1" "o1" "v1" 1 2 3 (mkGeo 0 2.39) (mkGeo 6.45 2.5)
              (store_init (<["c1" := mkUser "client" 0 0 0]>
                             {["d1" := mkUser "driver" 3 40 0]})
                 {["v1" := mkVehicle "d1" true (mkPricing (Some 500) (Some 3000))]})
              (mkUser "client" 0 0 0) (mkUser "driver" 3 40 0)
              (mkVehicle "d1" true (mkPricing (Some 500) (Some 3000))))
    as (_ & Hacc & Hdrv).
  - cbn [store_init core users]. apply lookup_insert_eq.
  - cbn [store_init core users]. rewrite lookup_insert_ne by discriminate.
    apply lookup_singleton_eq.
  - cbn [store_init core vehicles]. apply lookup_singleton_eq.
  - reflexivity.
  - reflexivity.
  - split; [exact Hacc | exact Hdrv].
Defined.
